(** * Vendor-contact enrichment (find_business_address.py)

A shallow embedding of the enrichment pipeline of
  [find_business_address.py]: the address decomposer
  [_parse_address_components], the website canonicaliser [_clean_domain]
  (with the part of [urllib.parse.urlsplit] it runs), the e-mail scraper
  [_extract_email_from_website], the batch driver [find_vendor_contacts]
  and the row loop of [process_vendor_csv].

Conventions.
  - A Python [str] is a [string]; a character is its code point, and the
    model carries the code points below 256.
  - [Optional[str]] is [option string]; [None] is Python's [None].
  - A Python [dict] with string keys is a [gmap string _]; a row of
    [csv.DictReader], which can hold the key [None] beside its string
    keys, is a [CsvRow].
  - Code that can raise returns an [Outcome]; code that talks to the
    network threads a [World], which answers every call as a function of
    the whole history of calls made so far. *)

From Stdlib Require Import ZArith QArith Ascii String.
From stdpp Require Import gmap strings list sorting.

Local Open Scope Z_scope.

(** ** Python string primitives *)

Module Py.

(** [c.isspace()] on the code points below 256. *)
Definition isspace (c : ascii) : bool :=
  let n := N_of_ascii c in
  ((9 <=? n) && (n <=? 13) || (28 <=? n) && (n <=? 32)
   || (n =? 133) || (n =? 160))%N.

Fixpoint all_chars (p : ascii -> bool) (s : string) : bool :=
  match s with
  | String c s' => p c && all_chars p s'
  | EmptyString => true
  end.

(** [s.lstrip()] *)
Fixpoint lstrip (s : string) : string :=
  match s with
  | String c s' => if isspace c then lstrip s' else s
  | EmptyString => EmptyString
  end.

(** [s.rstrip()] *)
Fixpoint rstrip (s : string) : string :=
  match s with
  | String c s' =>
      match rstrip s' with
      | EmptyString => if isspace c then EmptyString else String c EmptyString
      | r => String c r
      end
  | EmptyString => EmptyString
  end.

(** [s.strip()] *)
Definition strip (s : string) : string := rstrip (lstrip s).

(** [s.startswith(p)] *)
Fixpoint startswith (p s : string) : bool :=
  match p, s with
  | EmptyString, _ => true
  | String a p', String b s' => if decide (a = b) then startswith p' s' else false
  | String _ _, EmptyString => false
  end.

(** [s[n:]] for [n >= 0] *)
Fixpoint drop (n : nat) (s : string) : string :=
  match n, s with
  | S n', String _ s' => drop n' s'
  | _, _ => s
  end.

(** [s.partition(sep)] when [sep] occurs in [s]: the text before the first
    occurrence and the text after it; [None] when [sep] does not occur. *)
Fixpoint partition (sep s : string) : option (string * string) :=
  if startswith sep s then Some (EmptyString, drop (String.length sep) s)
  else
    match s with
    | String c s' =>
        match partition sep s' with
        | Some (b, a) => Some (String c b, a)
        | None => None
        end
    | EmptyString => None
    end.

(** [sep in s] *)
Definition contains (sep s : string) : bool := bool_decide (is_Some (partition sep s)).

Fixpoint split_fuel (n : nat) (sep s : string) : list string :=
  match n with
  | O => [s]
  | S n' =>
      match partition sep s with
      | Some (b, a) => b :: split_fuel n' sep a
      | None => [s]
      end
  end.

(** [s.split(sep)] for a non-empty [sep] (the source splits on the literals
    [","], ["?"] and ["mailto:"] only; Python raises [ValueError] on an
    empty separator).  Every cut removes at least one character, so
    [length s] cuts are enough. *)
Definition split (sep s : string) : list string :=
  split_fuel (String.length s) sep s.

(** [sep.join(l)] *)
Fixpoint join (sep : string) (l : list string) : string :=
  match l with
  | [] => EmptyString
  | [x] => x
  | x :: l' => x +:+ sep +:+ join sep l'
  end.

(** [l[start:stop]] with Python's treatment of negative and out-of-range
    bounds. *)
Definition slice {A} (start stop : Z) (l : list A) : list A :=
  let len := Z.of_nat (length l) in
  let norm i := if i <? 0 then Z.max 0 (len + i) else Z.min i len in
  let lo := norm start in
  let hi := norm stop in
  take (Z.to_nat (hi - lo)) (list.drop (Z.to_nat lo) l).

(** [l[i]] with Python's negative indices; [None] is [IndexError]. *)
Definition index {A} (i : Z) (l : list A) : option A :=
  let len := Z.of_nat (length l) in
  if i <? 0 then (if len + i <? 0 then None else l !! Z.to_nat (len + i))
  else l !! Z.to_nat i.

(** Truthiness of an [Optional[str]]: [None] and [""] are falsy. *)
Definition truthy (v : option string) : bool :=
  match v with
  | Some (String _ _) => true
  | _ => false
  end.

(** [a or b] on [Optional[str]] values. *)
Definition or_ (a b : option string) : option string :=
  if truthy a then a else b.

End Py.

(** ** Exceptions and outcomes *)

(** What the network libraries ([requests], [geopy]) raise when a call does
    not complete. *)
Inductive NetError := ConnectionFailed | TimedOut | OtherNetError.

(** The exceptions the pipeline can meet.  All but [SystemExit] derive from
    Python's [Exception]; asynchronous ones ([KeyboardInterrupt]) are outside
    the model. *)
Inductive Exn :=
  | EnvironmentError
  | ValueError
  | AttributeError
  | KeyError
  | IndexError
  | TypeError
  | HTTPError (status : Z)
  | JSONDecodeError
  | ValidationError
  | RequestException (e : NetError)
  | SystemExit (code : Z).

(** [isinstance(e, Exception)] *)
Definition is_Exception (e : Exn) : bool :=
  match e with
  | SystemExit _ => false
  | _ => true
  end.

Inductive Outcome (A : Type) :=
  | Ok (a : A)
  | Raise (e : Exn).
Arguments Ok {A} a.
Arguments Raise {A} e.

Global Instance Outcome_ret : MRet Outcome := fun _ a => Ok a.
Global Instance Outcome_bind : MBind Outcome := fun _ _ f m =>
  match m with
  | Ok a => f a
  | Raise e => Raise e
  end.
Global Instance Outcome_fmap : FMap Outcome := fun _ _ f m =>
  match m with
  | Ok a => Ok (f a)
  | Raise e => Raise e
  end.

(** ** The address decomposer *)

(** The dict [{'addr1': street, 'addr2': middle, 'addr4': country}] that
    [_parse_address_components] returns; its three keys are fixed. *)
Record Components := mkComponents {
  addr1 : string;
  addr2 : string;
  addr4 : string
}.

Definition of_option {A} (e : Exn) (o : option A) : Outcome A :=
  match o with
  | Some a => Ok a
  | None => Raise e
  end.

Definition _parse_address_components (address : string) : Outcome Components :=
  let parts := Py.strip <$> Py.split "," address in
  if bool_decide (2 ≤ length parts)%nat then
    street ← of_option IndexError (Py.index 0 parts);
    country ← of_option IndexError (Py.index (-1) parts);
    let middle := Py.join ", " (Py.slice 1 (-1) parts) in
    Ok (mkComponents street middle country)
  else
    Ok (mkComponents address "" "").

(** ** JSON values as [resp.json()] builds them *)

(** Numbers are carried as integers: the pipeline only tests a number for
    truthiness and fails to subscript it, and a float behaves the same
    there. *)
Inductive Json :=
  | JNull
  | JBool (b : bool)
  | JNum (n : Z)
  | JStr (s : string)
  | JArr (items : list Json)
  | JObj (fields : list (string * Json)).

Module Json.

(** [bool(j)] *)
Definition truthy (j : Json) : bool :=
  match j with
  | JNull => false
  | JBool b => b
  | JNum n => negb (n =? 0)
  | JStr s => negb (bool_decide (s = EmptyString))
  | JArr l => negb (bool_decide (l = []))
  | JObj l => negb (bool_decide (l = []))
  end.

Fixpoint assoc (k : string) (l : list (string * Json)) : option Json :=
  match l with
  | [] => None
  | (k', v) :: l' => if decide (k = k') then Some v else assoc k l'
  end.

(** [j.get(k, d)]: only a dict has the method. *)
Definition get (j : Json) (k : string) (d : Json) : Outcome Json :=
  match j with
  | JObj l => Ok (default d (assoc k l))
  | _ => Raise AttributeError
  end.

(** [j[0]] *)
Definition item0 (j : Json) : Outcome Json :=
  match j with
  | JArr (x :: _) => Ok x
  | JArr [] => Raise IndexError
  | JStr (String c _) => Ok (JStr (String c EmptyString))
  | JStr EmptyString => Raise IndexError
  | JObj _ => Raise KeyError
  | _ => Raise TypeError
  end.

(** [j[k]] for a string key [k] *)
Definition item (j : Json) (k : string) : Outcome Json :=
  match j with
  | JObj l => match assoc k l with Some v => Ok v | None => Raise KeyError end
  | _ => Raise TypeError
  end.

End Json.

(** ** urllib.parse (CPython 3.11), the part [_clean_domain] runs *)

Record ParseResult := mkParseResult {
  scheme : string;
  netloc : string;
  path : string;
  query : string;
  fragment : string
}.

(** Behaviour of the installed libraries that differs between their
    versions and is left open:
    - [bracketed_netloc_ok netloc]: whether [_check_bracketed_netloc] accepts
      a netloc that has both brackets (it parses an IP literal; releases
      before 3.11.4 have no such check, which is [fun _ => true]);
    - [nfkc_ok netloc]: whether [_checknetloc] accepts a netloc that is not
      all ASCII: whether its NFKC form, taken without the netloc's own
      [@ : # ?], is the same text or holds none of [/ ? # @ :] (it depends
      on the Unicode data of [unicodedata]);
    - [pydantic_str j]: what pydantic makes of a JSON value that is neither
      a string nor null in an [Optional[str]] field: [Some s] when it
      coerces, [None] when it raises [ValidationError]. *)
Record Lib := mkLib {
  bracketed_netloc_ok : string -> bool;
  nfkc_ok : string -> bool;
  pydantic_str : Json -> option string
}.

Module Url.

Definition is_c0_or_space (c : ascii) : bool := (N_of_ascii c <=? 32)%N.

(** [url.lstrip(_WHATWG_C0_CONTROL_OR_SPACE)] *)
Fixpoint lstrip_c0 (s : string) : string :=
  match s with
  | String c s' => if is_c0_or_space c then lstrip_c0 s' else s
  | EmptyString => EmptyString
  end.

Definition is_unsafe (c : ascii) : bool :=
  let n := N_of_ascii c in ((n =? 9) || (n =? 13) || (n =? 10))%N.

(** the three [url.replace(b, "")] for [b] in [_UNSAFE_URL_BYTES_TO_REMOVE] *)
Fixpoint remove_unsafe (s : string) : string :=
  match s with
  | String c s' => if is_unsafe c then remove_unsafe s' else String c (remove_unsafe s')
  | EmptyString => EmptyString
  end.

Definition is_upper (c : ascii) : bool :=
  let n := N_of_ascii c in ((65 <=? n) && (n <=? 90))%N.
Definition is_lower (c : ascii) : bool :=
  let n := N_of_ascii c in ((97 <=? n) && (n <=? 122))%N.
Definition is_digit (c : ascii) : bool :=
  let n := N_of_ascii c in ((48 <=? n) && (n <=? 57))%N.

(** [c.isascii() and c.isalpha()] *)
Definition is_ascii_alpha (c : ascii) : bool := is_upper c || is_lower c.

(** [c in scheme_chars] *)
Definition is_scheme_char (c : ascii) : bool :=
  let n := N_of_ascii c in
  is_ascii_alpha c || is_digit c || (n =? 43)%N || (n =? 45)%N || (n =? 46)%N.

Definition lower_char (c : ascii) : ascii :=
  if is_upper c then ascii_of_N (N_of_ascii c + 32) else c.

(** [s.lower()], on the characters a scheme can hold *)
Fixpoint lower (s : string) : string :=
  match s with
  | String c s' => String (lower_char c) (lower s')
  | EmptyString => EmptyString
  end.

(** [c.isascii()] *)
Definition is_ascii (c : ascii) : bool := (N_of_ascii c <? 128)%N.

Definition is_delim (c : ascii) : bool :=
  let n := N_of_ascii c in ((n =? 47) || (n =? 63) || (n =? 35))%N.

(** [_splitnetloc(url, 0)] on the text after the two slashes: the netloc
    runs up to the earliest of [/], [?] and [#]. *)
Fixpoint _splitnetloc (s : string) : string * string :=
  match s with
  | String c s' =>
      if is_delim c then (EmptyString, s)
      else let '(n, r) := _splitnetloc s' in (String c n, r)
  | EmptyString => (EmptyString, EmptyString)
  end.

(** [url.split(c, 1)] when [c] occurs, as the two assignments use it *)
Definition cut (sep url : string) : string * string :=
  match Py.partition sep url with
  | Some (b, a) => (b, a)
  | None => (url, EmptyString)
  end.

Section WithLib.
Context (lib : Lib).

(** [_checknetloc(netloc)]: nothing to check on an empty or an all-ASCII
    netloc; any other is normalised and refused when that brings one of
    [/ ? # @ :] into it. *)
Definition _checknetloc (netloc : string) : Outcome unit :=
  if bool_decide (netloc = EmptyString) || Py.all_chars is_ascii netloc then Ok tt
  else if nfkc_ok lib netloc then Ok tt
  else Raise ValueError.

(** [urlsplit(url)] on a [str], with the default [scheme=''] and
    [allow_fragments=True].  The [lru_cache] does not change results and is
    left out. *)
Definition urlsplit (url : string) : Outcome ParseResult :=
  let url := lstrip_c0 url in
  let url := remove_unsafe url in
  let '(scheme, url) :=
    match Py.partition ":" url with
    | Some (String c0 pre as head, rest) =>
        if is_ascii_alpha c0 && Py.all_chars is_scheme_char head
        then (lower head, rest)
        else (EmptyString, url)
    | _ => (EmptyString, url)
    end in
  '(netloc, url) ←
    (if Py.startswith "//" url then
       let '(netloc, rest) := _splitnetloc (Py.drop 2 url) in
       let has_open := Py.contains "[" netloc in
       let has_close := Py.contains "]" netloc in
       if has_open && negb has_close || has_close && negb has_open
       then Raise ValueError
       else if has_open && has_close && negb (bracketed_netloc_ok lib netloc)
       then Raise ValueError
       else Ok (netloc, rest)
     else Ok (EmptyString, url));
  let '(url, fragment) := cut "#" url in
  let '(url, query) := cut "?" url in
  _ ← _checknetloc netloc;
  Ok (mkParseResult scheme netloc url query fragment).

(** [urlparse(url)]: [urlsplit] and then a split of the path's [;params],
    which touches neither scheme nor netloc and is not modelled. *)
Definition urlparse (url : string) : Outcome ParseResult := urlsplit url.

End WithLib.

End Url.

Definition _clean_domain (lib : Lib) (raw_url : string) : Outcome string :=
  parts ← Url.urlparse lib raw_url;
  Ok (scheme parts +:+ "://" +:+ netloc parts).

(** The strictest libraries: every bracketed netloc and every netloc that
    is not all ASCII is refused, and pydantic coerces nothing. *)
Definition strict_lib : Lib := mkLib (fun _ => false) (fun _ => false) (fun _ => None).

(** ** The outside world *)

Record Location := mkLocation {
  latitude : Q;
  longitude : Q
}.

(** An element of a parsed page: its name and its attributes in the order
    of the source, as [html.parser] delivers them (names in lower case, an
    attribute without a value with the value [""]). *)
Record Tag := mkTag {
  tag_name : string;
  attrs : list (string * string)
}.

(** What [requests.get] returns: the status line, what [resp.json()] makes of
    the body ([None] when the body is not JSON), and the elements of
    [BeautifulSoup(resp.text, "html.parser")] in document order. *)
Record Response := mkResponse {
  status_code : Z;
  json_body : option Json;
  soup : list Tag
}.

(** The calls the pipeline makes, by what they ask for. *)
Inductive Request :=
  | ReqGeocode (location_str : string)
  | ReqTextSearch (query : string) (location : Location) (radius : Z) (key : string)
  | ReqDetails (place_id : Json) (fields : string) (key : string)
  | ReqPage (url : string) (timeout : Z).

(** The world answers a call from the history of all calls up to and
    including it, so the same request may be answered differently each
    time. *)
Record World := mkWorld {
  environ : gmap string string;
  geocoder : list Request -> NetError + option Location;
  http : list Request -> NetError + Response;
  history : list Request
}.

Definition record (req : Request) (w : World) : World :=
  mkWorld (environ w) (geocoder w) (http w) (history w ++ [req]).

(** Computations that call the world and may raise. *)
Definition M (A : Type) : Type := World -> Outcome A * World.

Global Instance M_ret : MRet M := fun _ a w => (Ok a, w).
Global Instance M_bind : MBind M := fun _ _ f m w =>
  match m w with
  | (Ok a, w') => f a w'
  | (Raise e, w') => (Raise e, w')
  end.

Definition lift {A} (o : Outcome A) : M A := fun w => (o, w).
Definition raise {A} (e : Exn) : M A := lift (Raise e).

(** [try: m  except Exception as e: h e] *)
Definition try_except {A} (m : M A) (h : Exn -> M A) : M A := fun w =>
  match m w with
  | (Raise e, w') => if is_Exception e then h e w' else (Raise e, w')
  | r => r
  end.

(** [os.getenv(k)] *)
Definition getenv (k : string) : M (option string) := fun w => (Ok (environ w !! k), w).

(** [Nominatim(...).geocode(location_str)] *)
Definition geocode (location_str : string) : M (option Location) := fun w =>
  let w' := record (ReqGeocode location_str) w in
  match geocoder w (history w') with
  | inl e => (Raise (RequestException e), w')
  | inr loc => (Ok loc, w')
  end.

(** [requests.get(...)] *)
Definition requests_get (req : Request) : M Response := fun w =>
  let w' := record req w in
  match http w (history w') with
  | inl e => (Raise (RequestException e), w')
  | inr resp => (Ok resp, w')
  end.

(** [resp.raise_for_status()] *)
Definition raise_for_status (resp : Response) : Outcome unit :=
  if (400 <=? status_code resp) && (status_code resp <? 600)
  then Raise (HTTPError (status_code resp))
  else Ok tt.

(** [resp.json()] *)
Definition json (resp : Response) : Outcome Json :=
  match json_body resp with
  | Some j => Ok j
  | None => Raise JSONDecodeError
  end.

(** ** The data model *)

Record VendorContact := mkVendorContact {
  name : string;
  address : option string;
  phone : option string;
  email : option string;
  website : option string
}.

(** [VendorContact(name=name)] *)
Definition empty_contact (name : string) : VendorContact :=
  mkVendorContact name None None None None.

(** pydantic's validation of an [Optional[str]] field *)
Definition validate_optional_str (lib : Lib) (j : Json) : Outcome (option string) :=
  match j with
  | JNull => Ok None
  | JStr s => Ok (Some s)
  | _ => match pydantic_str lib j with
         | Some s => Ok (Some s)
         | None => Raise ValidationError
         end
  end.

(** The cells that a row of [csv.DictReader] holds under its string keys,
    the column names; the cell of a column that a short line lacks is
    [None]. *)
Abbreviation Row := (gmap string (option string)).

(** A row of [csv.DictReader]: the dict of the cells under the column
    names and, for a line with more cells than the header has columns, the
    list of the surplus cells, which [DictReader] files under the key
    [None]. *)
Record CsvRow := mkCsvRow {
  cells : Row;
  surplus : option (list string)
}.

(** [row.get(k)] *)
Definition row_get (row : Row) (k : string) : option string :=
  default None (row !! k).

(** [row.get(k, '')] *)
Definition row_get_or_empty (row : Row) (k : string) : option string :=
  default (Some EmptyString) (row !! k).

(** ** The e-mail scraper *)

(** [tag.attrs.get(k)]: BeautifulSoup files the attributes of an element in
    a dict, one after the other, so of an attribute that the source repeats
    the last value is the one it holds. *)
Fixpoint attr_get (k : string) (l : list (string * string)) : option string :=
  match l with
  | [] => None
  | (k', v) :: l' =>
      match attr_get k l' with
      | Some v' => Some v'
      | None => if decide (k = k') then Some v else None
      end
  end.

(** the CSS selector [a[href^="mailto:"]] on one element *)
Definition is_mailto_anchor (t : Tag) : bool :=
  bool_decide (tag_name t = "a") &&
  match attr_get "href" (attrs t) with
  | Some v => Py.startswith "mailto:" v
  | None => false
  end.

(** [soup.select_one(sel)]: the first match in document order *)
Definition select_one (sel : Tag -> bool) (doc : list Tag) : option Tag :=
  head (filter (fun t => sel t = true) doc).

Definition _extract_email_from_website (url : string) : M (option string) :=
  try_except
    (resp ← requests_get (ReqPage url 5);
     _ ← lift (raise_for_status resp);
     match select_one is_mailto_anchor (soup resp) with
     | Some link =>
         href ← lift (of_option KeyError (attr_get "href" (attrs link)));
         after ← lift (of_option IndexError (Py.index 1 (Py.split "mailto:" href)));
         addr ← lift (of_option IndexError (Py.index 0 (Py.split "?" after)));
         mret (Some addr)
     | None => mret None
     end)
    (fun e => mret None).

(** ** The batch driver *)

Definition _geocode_location (location_str : string) : M Location :=
  loc ← geocode location_str;
  match loc with
  | Some l => mret l
  | None => raise ValueError
  end.

Definition details_fields : string :=
  "formatted_address,formatted_phone_number,website".

Section Pipeline.
Context (lib : Lib).

(** Lines 125-145, the search stage and the fetch of the details: the
    [result] object of the first candidate, or [None] when the search has
    no candidate. *)
Definition place_details (api_key : string) (loc : Location) (radius : Z)
    (name : string) : M (option Json) :=
  resp ← requests_get (ReqTextSearch name loc radius api_key);
  _ ← lift (raise_for_status resp);
  body ← lift (json resp);
  items ← lift (Json.get body "results" (JArr []));
  if negb (Json.truthy items) then mret None
  else
    first ← lift (Json.item0 items);
    place_id ← lift (Json.item first "place_id");
    dresp ← requests_get (ReqDetails place_id details_fields api_key);
    dbody ← lift (json dresp);
    det ← lift (Json.get dbody "result" (JObj []));
    mret (Some det).

(** Lines 147-159: the contact built from the details.  [urlparse] fails
    with [AttributeError] on a truthy value that is not a [str]. *)
Definition contact_from (name : string) (det : Json) : M VendorContact :=
  raw_site ← lift (Json.get det "website" JNull);
  clean_site ← lift
    (if Json.truthy raw_site then
       match raw_site with
       | JStr s => site ← _clean_domain lib s; Ok (Some site)
       | _ => Raise AttributeError
       end
     else Ok None);
  raw_address ← lift (Json.get det "formatted_address" JNull);
  raw_phone ← lift (Json.get det "formatted_phone_number" JNull);
  address ← lift (validate_optional_str lib raw_address);
  phone ← lift (validate_optional_str lib raw_phone);
  let contact := mkVendorContact name address phone None clean_site in
  if Py.truthy (website contact) then
    email ← _extract_email_from_website (default EmptyString (website contact));
    mret (mkVendorContact name address phone email clean_site)
  else mret contact.

(** The body of the [try] of one loop iteration, lines 125-161; its value
    is the contact that the iteration files under [name], at line 135
    (no candidate, then [continue]) or at line 161. *)
Definition lookup (api_key : string) (loc : Location) (radius : Z)
    (name : string) : M VendorContact :=
  found ← place_details api_key loc radius name;
  match found with
  | None => mret (empty_contact name)
  | Some det => contact_from name det
  end.

(** One iteration of [for name in vendor_names], lines 122-165. *)
Definition iteration (api_key : string) (loc : Location) (radius : Z)
    (results : gmap string VendorContact) (name : string)
    : M (gmap string VendorContact) :=
  try_except
    (contact ← lookup api_key loc radius name;
     mret (<[name := contact]> results))
    (fun e => mret (<[name := empty_contact name]> results)).

Fixpoint loop (api_key : string) (loc : Location) (radius : Z)
    (vendor_names : list string) (results : gmap string VendorContact)
    : M (gmap string VendorContact) :=
  match vendor_names with
  | [] => mret results
  | name :: rest =>
      results' ← iteration api_key loc radius results name;
      loop api_key loc radius rest results'
  end.

Definition default_location : string := "New Albany, Indiana, United States".

Definition find_vendor_contacts (vendor_names : list string)
    (location_str : option string) (radius : Z)
    (google_api_key : option string) : M (gmap string VendorContact) :=
  env1 ← getenv "GOOGLE_PLACES_API_KEY";
  env2 ← getenv "GOOGLE_API_KEY";
  match Py.or_ (Py.or_ google_api_key env1) env2 with
  | Some (String _ _ as api_key) =>
      loc ← _geocode_location (default default_location location_str);
      loop api_key loc radius vendor_names ∅
  | _ => raise EnvironmentError
  end.

(** ** The record merger: the body of the row loop, lines 252-270 *)

(** Lines 257-264: the address block. *)
Definition set_address (comps : Components) (row : Row) : Row :=
  let row := <["addr1" := Some (addr1 comps)]> row in
  let row := <["addr2" := Some (addr2 comps)]> row in
  let row := <["addr4" := Some (addr4 comps)]> row in
  let row := <["shipaddr1" := Some (addr1 comps)]> row in
  let row := <["shipaddr2" := Some (addr2 comps)]> row in
  let row := <["shipaddr3" := row_get_or_empty row "addr3"]> row in
  let row := <["shipaddr4" := Some (addr4 comps)]> row in
  row.

(** Lines 267-270: the phone and e-mail block. *)
Definition set_phone_email (c : VendorContact) (row : Row) : Row :=
  let row := <["phone" := Py.or_ (phone c) (row_get_or_empty row "phone")]> row in
  let row := <["shiphone" := Py.or_ (phone c) (row_get_or_empty row "shiphone")]> row in
  let row := <["email" := Py.or_ (email c) (row_get_or_empty row "email")]> row in
  let row := <["shipmail" := Py.or_ (email c) (row_get_or_empty row "shipmail")]> row in
  row.

(** [contact] is [None] when [contacts.get] found nothing; a
    [VendorContact] object itself is always truthy. *)
Definition merge (row : Row) (contact : option VendorContact) : Outcome Row :=
  row ←
    match contact with
    | Some c =>
        if Py.truthy (address c) then
          comps ← _parse_address_components (default EmptyString (address c));
          Ok (set_address comps row)
        else Ok row
    | None => Ok row
    end;
  match contact with
  | Some c => Ok (set_phone_email c row)
  | None => Ok row
  end.

(** [contacts.get(name)] for [name = row.get('company')]; the keys of
    [contacts] are strings, so [None] finds nothing. *)
Definition contact_of (contacts : gmap string VendorContact) (row : Row)
    : option VendorContact :=
  match row_get row "company" with
  | Some name => contacts !! name
  | None => None
  end.

Definition required_cols : list string :=
  ["company"; "addr1"; "addr2"; "addr3"; "addr4";
   "shipaddr1"; "shipaddr2"; "shipaddr3"; "shipaddr4";
   "phone"; "shiphone"; "email"; "shipmail"].

(** [sorted({row['company'] for row in rows if row.get('company')})] *)
Definition company_names (rows : list Row) : list string :=
  merge_sort String.le
    (remove_dups
       (omap (fun row : Row =>
                if Py.truthy (row_get row "company") then row_get row "company"
                else None) rows)).

(** Whether [DictWriter.writerow] takes a row: with the default
    [extrasaction='raise'] it raises [ValueError] for a dict with a key
    that is not in [fieldnames]; the key [None] of an over-long line never
    is, the header being a list of strings. *)
Definition fits (fieldnames : list string) (row : CsvRow) : bool :=
  bool_decide (surplus row = None) &&
  bool_decide (dom (cells row) ⊆@{gset string} list_to_set fieldnames).

(** The write loop, lines 251-273, from the rows written so far: each row
    is merged (the merge touches string keys only) and handed to
    [writer.writerow], which writes it or raises.  The loop leaves its
    outcome and the rows written. *)
Fixpoint write_rows (fieldnames : list string)
    (contacts : gmap string VendorContact) (rows : list CsvRow)
    (file : list Row) : Outcome unit * list Row :=
  match rows with
  | [] => (Ok tt, file)
  | row :: rest =>
      match merge (cells row) (contact_of contacts (cells row)) with
      | Ok merged =>
          if fits fieldnames (mkCsvRow merged (surplus row))
          then write_rows fieldnames contacts rest (file ++ [merged])
          else (Raise ValueError, file)
      | Raise e => (Raise e, file)
      end
  end.

(** [process_vendor_csv] from the check of the header on, given the header
    and the rows that [csv.DictReader] read.  Its value, when the run
    completes, is the list of the rows written, as the dicts handed to
    [writer.writerow]; a run that fails in the write loop has written the
    rows that [write_rows] leaves. *)
Definition process_vendor_csv (fieldnames : list string) (rows : list CsvRow)
    : M (list Row) :=
  if negb (bool_decide (required_cols ⊆ fieldnames)) then raise (SystemExit 1)
  else
    contacts ← find_vendor_contacts (company_names (cells <$> rows)) None 5000 None;
    let '(r, file) := write_rows fieldnames contacts rows [] in
    lift (_ ← r; Ok file).

End Pipeline.

(** ** Vocabulary of the statements *)

(** What [strip] removes and what it leaves. *)
Definition trimmed (t : string) : Prop :=
  (∀ c r, t = String c r → Py.isspace c = false) ∧
  (∀ r c, t = r +:+ String c "" → Py.isspace c = false).

(** The text before the first occurrence of [sep], or all of [s] when
    [sep] does not occur: [s.split(sep)[0]]. *)
Definition before (sep s : string) : string :=
  match Py.partition sep s with
  | Some (b, _) => b
  | None => s
  end.

(** What the scraper computes, in one equation. *)
Definition extract_result (answer : NetError + Response) : option string :=
  match answer with
  | inl _ => None
  | inr resp =>
      match raise_for_status resp with
      | Raise _ => None
      | Ok _ =>
          match select_one is_mailto_anchor (soup resp) with
          | None => None
          | Some link =>
              href ← attr_get "href" (attrs link);
              after ← Py.index 1 (Py.split "mailto:" href);
              Py.index 0 (Py.split "?" after)
          end
      end
  end.

Definition address_keys : list string :=
  ["addr1"; "addr2"; "addr4"; "shipaddr1"; "shipaddr2"; "shipaddr3"; "shipaddr4"].

Definition contact_keys : list string := ["phone"; "shiphone"; "email"; "shipmail"].

(** The key that lines 100-104 settle on. *)
Definition api_key_of (google_api_key : option string) (w : World) : option string :=
  Py.or_ (Py.or_ google_api_key (environ w !! "GOOGLE_PLACES_API_KEY"))
         (environ w !! "GOOGLE_API_KEY").

(** The text that [urlsplit] parses: the URL without its leading control
    characters and spaces and without tabs and line breaks. *)
Definition sanitized (raw : string) : string :=
  Url.remove_unsafe (Url.lstrip_c0 raw).

Definition no_delim (s : string) : Prop :=
  Py.all_chars (λ c, negb (Url.is_delim c)) s = true.

(** A contact's website, when it has one, is a scheme and a netloc that
    [urlparse] found in some URL, put back together. *)
Definition canonical (lib : Lib) (c : VendorContact) : Prop :=
  ∀ site, website c = Some site →
    ∃ raw parts, Url.urlparse lib raw = Ok parts ∧
                 site = scheme parts +:+ "://" +:+ netloc parts.

(** A pure step that raises nothing but subclasses of [Exception]. *)
Definition safe {A} (o : Outcome A) : Prop :=
  match o with
  | Ok _ => True
  | Raise e => is_Exception e = true
  end.

(** [wp m w Q E]: run from world [w], [m] returns a value and a world that
    satisfy [Q], or raises an exception that with the world satisfies [E]. *)
Definition wp {A} (m : M A) (w : World)
    (Q : A → World → Prop) (E : Exn → World → Prop) : Prop :=
  match m w with
  | (Ok a, w') => Q a w'
  | (Raise e, w') => E e w'
  end.

(** The names that the text searches of a history asked for, in order. *)
Definition searches (calls : list Request) : list string :=
  omap (λ req, match req with
               | ReqTextSearch query _ _ _ => Some query
               | _ => None
               end) calls.

(** [logs names m]: whether it returns or raises, [m] makes text searches
    for exactly [names], in that order. *)
Definition logs {A} (names : list string) (m : M A) : Prop :=
  ∀ w, wp m w
    (λ _ w', searches (history w') = searches (history w) ++ names)
    (λ _ w', searches (history w') = searches (history w) ++ names).

(** A part of a formatted address: no comma in it, no whitespace at its
    ends ([strip] leaves it as it is). *)
Definition address_part (p : string) : Prop :=
  Py.strip p = p ∧ Py.contains "," p = false.


Definition not_bracket (c : ascii) : bool :=
  negb (Ascii.eqb c "[") && negb (Ascii.eqb c "]").

(** An ASCII character other than the square brackets. *)
Definition plain_char (c : ascii) : bool := Url.is_ascii c && not_bracket c.

(** [made w reqs w']: from [w] to [w'] the requests [reqs] were made, in
    that order, and nothing else of the world changed. *)
Definition made (w : World) (reqs : list Request) (w' : World) : Prop :=
  w' = mkWorld (environ w) (geocoder w) (http w) (history w ++ reqs).

(** The requests that one name gives rise to: its text search, then at most
    the details of one place, then at most one page, a canonical website,
    fetched with a time-out of five seconds. *)
Definition name_requests (lib : Lib) (api_key : string) (loc : Location)
    (radius : Z) (nm : string) (reqs : list Request) : Prop :=
  reqs = [ReqTextSearch nm loc radius api_key] ∨
  ∃ place_id,
    reqs = [ReqTextSearch nm loc radius api_key;
            ReqDetails place_id details_fields api_key] ∨
    ∃ raw site, _clean_domain lib raw = Ok site ∧
      reqs = [ReqTextSearch nm loc radius api_key;
              ReqDetails place_id details_fields api_key;
              ReqPage site 5].

(** The search stage makes the text search and at most one details
    request, whether it returns or raises. *)
Definition search_requests (api_key : string) (loc : Location) (radius : Z)
    (nm : string) (w w' : World) : Prop :=
  made w [ReqTextSearch nm loc radius api_key] w' ∨
  ∃ place_id, made w [ReqTextSearch nm loc radius api_key;
                      ReqDetails place_id details_fields api_key] w'.

(** What one name leaves behind: the requests made for it, and a contact
    whose website is the page that was fetched, if one was. *)
Definition name_run (lib : Lib) (api_key : string) (loc : Location) (radius : Z)
    (nm : string) (c : VendorContact) (w w' : World) : Prop :=
  ∃ reqs, name_requests lib api_key loc radius nm reqs ∧ made w reqs w' ∧
    (∀ site, ReqPage site 5 ∈ reqs ↔ website c = Some site) ∧
    (is_Some (email c) → is_Some (website c)).

(** ** Sample data *)

Definition acme : VendorContact :=
  mkVendorContact "Acme" (Some "1 Main St, Town, IN 47150, USA") (Some "555-0100")
    None (Some "https://acme.com").

Definition acme_row : Row :=
  list_to_map [("id", Some "7"); ("company", Some "Acme"); ("addr1", Some "old");
               ("addr3", Some "Suite 1"); ("phone", Some ""); ("email", Some "a@b.c")].

Definition loc0 : Location := mkLocation (38 # 1) (-85 # 1).

Definition mail_link : Tag :=
  mkTag "a" [("href", "mailto:info@acme.com?subject=hi")].

Definition acme_page : Response :=
  mkResponse 200 None [mkTag "p" []; mkTag "a" [("href", "/x")]; mail_link].

Definition acme_details : Json :=
  JObj [("formatted_address", JStr "1 Main St, Town, IN 47150, USA");
        ("website", JStr "https://acme.com/contact?x=1")].

Definition bare_details : Json := JObj [("website", JStr "example.com/path")].

Definition no_results : Response :=
  mkResponse 200 (Some (JObj [("results", JArr [])])) [].

(** A world with a key in the environment, a geocoder that finds the
    anchor, one place for ["Acme"], none for ["Nobody"] and a time-out for
    any other name. *)
Definition answer0 (h : list Request) : NetError + Response :=
  match last h with
  | Some (ReqTextSearch "Acme" _ _ _) =>
      inr (mkResponse 200
             (Some (JObj [("results", JArr [JObj [("place_id", JStr "P1")]])])) [])
  | Some (ReqTextSearch "Nobody" _ _ _) => inr no_results
  | Some (ReqTextSearch _ _ _ _) => inl TimedOut
  | Some (ReqDetails (JStr "P1") _ _) =>
      inr (mkResponse 200 (Some (JObj [("result", acme_details)])) [])
  | Some (ReqPage "https://acme.com" _) => inr acme_page
  | _ => inl ConnectionFailed
  end.

Definition w0 : World :=
  mkWorld {[ "GOOGLE_API_KEY" := "k" ]} (fun _ => inr (Some loc0)) answer0 [].

Definition blank_row : Row :=
  list_to_map [("id", Some "8"); ("company", Some ""); ("addr1", Some "kept");
               ("phone", None)].

(** A world whose every page comes with the status 300 and a mailto
    anchor. *)
Definition w_300 : World :=
  mkWorld ∅ (fun _ => inr None) (fun _ => inr (mkResponse 300 None [mail_link])) [].

(** A URL with a tab between its two leading slashes. *)
Definition tabbed_url : string := String "/" (String "009" "/example.com/path").

(** An anchor whose source repeats the [href]. *)
Definition two_hrefs : Tag :=
  mkTag "a" [("href", "/contact"); ("href", "mailto:last@acme.com")].

(** The two rows as lines that fit a header with their columns, and an
    over-long line without a company name. *)
Definition acme_line : CsvRow := mkCsvRow acme_row None.
Definition blank_line : CsvRow := mkCsvRow blank_row None.

(** The contact that a run on [w0] files under ["Acme"]. *)
Definition acme_found : VendorContact :=
  mkVendorContact "Acme" (Some "1 Main St, Town, IN 47150, USA") None
    (Some "info@acme.com") (Some "https://acme.com").

Definition bad_site_details : Json :=
  JObj [("formatted_address", JStr "1 Main St, Town, IN 47150, USA");
        ("formatted_phone_number", JStr "555-0100");
        ("website", JStr "http://[::1")].

(** A world in which every name has a place, whose website has an opening
    square bracket without the closing one. *)
Definition answer_bad (h : list Request) : NetError + Response :=
  match last h with
  | Some (ReqTextSearch _ _ _ _) =>
      inr (mkResponse 200
             (Some (JObj [("results", JArr [JObj [("place_id", JStr "P1")]])])) [])
  | Some (ReqDetails _ _ _) =>
      inr (mkResponse 200 (Some (JObj [("result", bad_site_details)])) [])
  | _ => inl ConnectionFailed
  end.

Definition w_bad : World :=
  mkWorld {[ "GOOGLE_API_KEY" := "k" ]} (fun _ => inr (Some loc0)) answer_bad [].

(** * Properties *)

(** ** Strings *)

Section PyFacts.

Lemma str_app_cons (c : ascii) (s t : string) : String c s +:+ t = String c (s +:+ t).
Proof. reflexivity. Qed.

Lemma str_app_nil_l (t : string) : "" +:+ t = t.
Proof. reflexivity. Qed.

Lemma str_app_empty_r (s : string) : s +:+ "" = s.
Proof. induction s as [|c s IH]; [done|]. by rewrite str_app_cons, IH. Qed.

Lemma str_app_assoc (a b c : string) : (a +:+ b) +:+ c = a +:+ b +:+ c.
Proof. induction a as [|x a IH]; [done|]. by rewrite !str_app_cons, IH. Qed.

Lemma str_length_app (a b : string) :
  String.length (a +:+ b) = (String.length a + String.length b)%nat.
Proof. induction a as [|x a IH]; [done|]. rewrite str_app_cons. cbn. by rewrite IH. Qed.

Lemma startswith_app (p s : string) :
  Py.startswith p s = true → s = p +:+ Py.drop (String.length p) s.
Proof.
  revert s. induction p as [|a p IH]; intros [|b s]; cbn; try done.
  case_decide; [|done]. subst. intros H. by rewrite str_app_cons, <- (IH s H).
Qed.

Lemma startswith_app_iff (p s : string) :
  Py.startswith p s = true ↔ ∃ r, s = p +:+ r.
Proof.
  split.
  - intros H. eexists. by apply startswith_app.
  - intros [r ->]. induction p as [|a p IH]; [done|].
    rewrite str_app_cons. cbn. by rewrite decide_True.
Qed.

Lemma drop_app_length (p r : string) : Py.drop (String.length p) (p +:+ r) = r.
Proof. induction p as [|a p IH]; [by destruct r|]. by rewrite str_app_cons. Qed.

(** A found separator splits the string around it. *)
Lemma partition_Some (sep s b a : string) :
  Py.partition sep s = Some (b, a) → s = b +:+ sep +:+ a.
Proof.
  revert b. induction s as [|c s IH]; intros b; cbn.
  - destruct (Py.startswith sep "") eqn:E; [|done].
    intros [= <- <-]. by apply startswith_app in E.
  - destruct (Py.startswith sep (String c s)) eqn:E.
    + intros [= <- <-]. by apply startswith_app in E.
    + destruct (Py.partition sep s) as [[b' a']|]; [|done].
      intros [= <- <-]. by rewrite str_app_cons, <- (IH b' eq_refl).
Qed.

Lemma partition_shorter (c : ascii) (sep s b a : string) :
  Py.partition (String c sep) s = Some (b, a) →
  (String.length b + String.length a < String.length s)%nat.
Proof.
  intros ->%partition_Some. rewrite !str_length_app. cbn. lia.
Qed.

Lemma split_fuel_enough (c : ascii) (sep : string) (n m : nat) (s : string) :
  (String.length s ≤ n)%nat → (String.length s ≤ m)%nat →
  Py.split_fuel n (String c sep) s = Py.split_fuel m (String c sep) s.
Proof.
  revert m s. induction n as [|n IH]; intros m s Hn Hm.
  - destruct s; [|cbn in Hn; lia]. by destruct m.
  - destruct m as [|m].
    + destruct s; [done|cbn in Hm; lia].
    + cbn [Py.split_fuel].
      destruct (Py.partition (String c sep) s) as [[b a]|] eqn:E; [|done].
      apply partition_shorter in E. f_equal. apply IH; lia.
Qed.

(** The defining equation of [split], free of fuel. *)
Lemma split_unfold (c : ascii) (sep s : string) :
  Py.split (String c sep) s =
  match Py.partition (String c sep) s with
  | Some (b, a) => b :: Py.split (String c sep) a
  | None => [s]
  end.
Proof.
  unfold Py.split. destruct s as [|x s]; cbn [String.length Py.split_fuel].
  - by destruct (Py.partition _ _) as [[b a]|] eqn:E;
      [apply partition_shorter in E; cbn in E; lia|].
  - destruct (Py.partition _ _) as [[b a]|] eqn:E; [|done].
    apply partition_shorter in E. cbn in E. f_equal.
    apply split_fuel_enough; lia.
Qed.

(** Induction along the cuts that [split] makes. *)
Lemma split_ind (c : ascii) (sep : string) (P : string → list string → Prop) :
  (∀ s, Py.partition (String c sep) s = None → P s [s]) →
  (∀ s b a, Py.partition (String c sep) s = Some (b, a) →
     P a (Py.split (String c sep) a) → P s (b :: Py.split (String c sep) a)) →
  ∀ s, P s (Py.split (String c sep) s).
Proof.
  intros Hnone Hsome s.
  remember (String.length s) as n eqn:Hn.
  revert s Hn. induction n as [n IH] using lt_wf_ind. intros s ->.
  rewrite split_unfold.
  destruct (Py.partition _ _) as [[b a]|] eqn:E; [|by apply Hnone].
  apply Hsome; [done|]. apply (IH (String.length a)); [|done].
  apply partition_shorter in E. lia.
Qed.

Lemma split_nonempty (c : ascii) (sep s : string) : Py.split (String c sep) s ≠ [].
Proof. rewrite split_unfold. by destruct (Py.partition _ _) as [[??]|]. Qed.

(** Joining the pieces with the separator gives the string back. *)
Lemma join_split (c : ascii) (sep s : string) :
  Py.join (String c sep) (Py.split (String c sep) s) = s.
Proof.
  apply (split_ind c sep (λ s l, Py.join (String c sep) l = s)); [done|].
  clear s. intros s b a E IH. cbn [Py.join].
  destruct (Py.split (String c sep) a) eqn:El; [by apply split_nonempty in El|].
  rewrite IH. symmetry. by apply partition_Some.
Qed.

(** There are two pieces or more exactly when the separator occurs. *)
Lemma split_length_ge_2 (c : ascii) (sep s : string) :
  (2 ≤ length (Py.split (String c sep) s))%nat ↔ Py.contains (String c sep) s = true.
Proof.
  unfold Py.contains. rewrite bool_decide_eq_true, split_unfold.
  destruct (Py.partition _ _) as [[b a]|] eqn:E.
  - pose proof (split_nonempty c sep a).
    destruct (Py.split (String c sep) a); [done|]. cbn. split; [eauto|lia].
  - cbn. split; [lia|]. by intros [? [=]].
Qed.

Lemma split_no_sep (c : ascii) (sep s : string) :
  Py.contains (String c sep) s = false → Py.split (String c sep) s = [s].
Proof.
  unfold Py.contains. rewrite bool_decide_eq_false, split_unfold.
  destruct (Py.partition _ _) as [[b a]|]; [|done]. intros []. eauto.
Qed.

(** The piece before a one-character separator is free of it. *)
Lemma partition_char_before (c : ascii) (s b a : string) :
  Py.partition (String c "") s = Some (b, a) → Py.contains (String c "") b = false.
Proof.
  unfold Py.contains. rewrite bool_decide_eq_false.
  revert b. induction s as [|x s IH]; intros b; [done|].
  cbn. case_decide.
  - intros [= <- <-]. by intros [? [=]].
  - destruct (Py.partition (String c "") s) as [[b' a']|]; [|done].
    intros [= <- <-]. cbn. rewrite decide_False by done.
    specialize (IH b' eq_refl).
    destruct (Py.partition (String c "") b') as [[??]|]; [|by intros [? [=]]].
    destruct IH. eauto.
Qed.

Lemma split_char_pieces (c : ascii) (s : string) :
  Forall (λ p, Py.contains (String c "") p = false) (Py.split (String c "") s).
Proof.
  apply (split_ind c "" (λ _ l, Forall (λ p, Py.contains (String c "") p = false) l)).
  - intros s' E. constructor; [|done].
    unfold Py.contains. rewrite bool_decide_eq_false, E. by intros [? [=]].
  - intros s' b a E IH. constructor; [|done]. by eapply partition_char_before.
Qed.

Lemma lstrip_spec (s : string) :
  ∃ l, s = l +:+ Py.lstrip s ∧ Py.all_chars Py.isspace l = true ∧
       ∀ c r, Py.lstrip s = String c r → Py.isspace c = false.
Proof.
  induction s as [|x s (l & Hl & Hsp & Hhd)].
  - by exists "".
  - cbn. destruct (Py.isspace x) eqn:E.
    + exists (String x l). rewrite str_app_cons, <- Hl. cbn. by rewrite E, Hsp.
    + exists "". split_and!; [done..|]. by intros ?? [= <- <-].
Qed.

Lemma rstrip_spec (s : string) :
  ∃ r, s = Py.rstrip s +:+ r ∧ Py.all_chars Py.isspace r = true ∧
       (∀ t c, Py.rstrip s = t +:+ String c "" → Py.isspace c = false) ∧
       (∀ c s', s = String c s' → Py.isspace c = false →
                ∃ t, Py.rstrip s = String c t).
Proof.
  induction s as [|x s (r & Hr & Hsp & Hlast & Hhd)].
  - exists "". split_and!; [done..| |done]. by intros [|??] ?.
  - cbn. destruct (Py.rstrip s) as [|y t] eqn:Et.
    + destruct (Py.isspace x) eqn:E.
      * exists (String x r). rewrite str_app_nil_l in *. subst s.
        split_and!; [done|cbn; by rewrite E, Hsp| by intros [|??] ?|congruence].
      * exists r. rewrite str_app_cons, <- Hr. split_and!; [done..| |].
        -- intros [|? [|??]] c; rewrite ?str_app_cons, ?str_app_nil_l; congruence.
        -- intros ?? [= <- <-] _. eauto.
    + exists r. rewrite str_app_cons, <- Hr. split_and!; [done..| |].
      * intros [|z t'] c; rewrite ?str_app_cons, ?str_app_nil_l; [done|].
        intros [= <- H]. by apply (Hlast t').
      * intros ?? [= <- <-] _. eauto.
Qed.

Lemma strip_spec (s : string) :
  ∃ l r, s = l +:+ Py.strip s +:+ r ∧
         Py.all_chars Py.isspace l = true ∧ Py.all_chars Py.isspace r = true ∧
         trimmed (Py.strip s).
Proof.
  unfold Py.strip.
  destruct (lstrip_spec s) as (l & Hl & Hsl & Hhd).
  destruct (rstrip_spec (Py.lstrip s)) as (r & Hr & Hsr & Hlast & Hkeep).
  exists l, r. split_and!; [congruence|done..|]. split; [|done].
  intros c t Ht. destruct (Py.lstrip s) as [|y u] eqn:Eu; [done|].
  pose proof (Hhd y u eq_refl) as Hy.
  destruct (Hkeep y u eq_refl Hy) as [t' Ht']. congruence.
Qed.

End PyFacts.

(** ** Lists *)

Section SliceFacts.
Context {A : Type}.
Implicit Types l : list A.

Lemma index_0 l : Py.index 0 l = head l.
Proof. unfold Py.index. cbn. by destruct l. Qed.

Lemma index_last l : Py.index (-1) l = last l.
Proof.
  unfold Py.index. cbn [Z.ltb Z.compare]. rewrite last_lookup.
  destruct l as [|x l]; [done|].
  cbn [length]. case_match eqn:E; [apply Z.ltb_lt in E; lia|].
  f_equal. lia.
Qed.

Lemma slice_interior l :
  (2 ≤ length l)%nat → Py.slice 1 (-1) l = removelast (tail l).
Proof.
  intros Hlen. unfold Py.slice. cbn [Z.ltb Z.compare].
  destruct l as [|x l]; [cbn in Hlen; lia|]. cbn [length tail] in *.
  rewrite removelast_firstn_len.
  rewrite Z.min_l by lia. change (Z.to_nat 1) with 1%nat.
  cbn [list.drop]. f_equal. lia.
Qed.

End SliceFacts.

(** ** The address decomposer *)

Example decompose_full :
  _parse_address_components "123 Main St, Springfield, IL 62704, USA"
  = Ok (mkComponents "123 Main St" "Springfield, IL 62704" "USA").
Proof. reflexivity. Qed.

Example decompose_no_comma :
  _parse_address_components "Unit 5" = Ok (mkComponents "Unit 5" "" "").
Proof. reflexivity. Qed.

Example decompose_untrimmed :
  _parse_address_components " Unit 5 " = Ok (mkComponents " Unit 5 " "" "").
Proof. reflexivity. Qed.

Example decompose_two :
  _parse_address_components " a ,b " = Ok (mkComponents "a" "" "b").
Proof. reflexivity. Qed.

Lemma parse_address_components_ge_2 (address : string) :
  let parts := Py.strip <$> Py.split "," address in
  (2 ≤ length (Py.split "," address))%nat →
  ∃ street country,
    head parts = Some street ∧ last parts = Some country ∧
    _parse_address_components address =
      Ok (mkComponents street (Py.join ", " (removelast (tail parts))) country).
Proof.
  intros parts Hlen. unfold _parse_address_components. fold parts.
  assert (Hp : (2 ≤ length parts)%nat) by (unfold parts; by rewrite length_fmap).
  rewrite bool_decide_eq_true_2 by done.
  rewrite index_0, index_last, slice_interior by done.
  destruct parts as [|street rest] eqn:E; [cbn in Hp; lia|].
  destruct (last (street :: rest)) as [country|] eqn:El.
  - by exists street, country.
  - by apply last_None in El.
Qed.

Lemma parse_address_components_lt_2 (address : string) :
  (length (Py.split "," address) < 2)%nat →
  _parse_address_components address = Ok (mkComponents address "" "").
Proof.
  intros Hlen. unfold _parse_address_components.
  rewrite bool_decide_eq_false_2; [done|]. rewrite length_fmap. lia.
Qed.

Lemma parse_address_components_total (address : string) :
  ∃ comps, _parse_address_components address = Ok comps.
Proof.
  destruct (decide (2 ≤ length (Py.split "," address))%nat) as [H|H].
  - destruct (parse_address_components_ge_2 address H) as (? & ? & _ & _ & ->). eauto.
  - rewrite parse_address_components_lt_2 by lia. eauto.
Qed.

(** C4. For every string, [_parse_address_components] cuts it at the commas
    (the pieces joined by commas give the string back and hold no comma) and
    trims the whitespace of every piece; with two pieces or more it returns
    the first piece as street, the last as country and the pieces between
    them joined by [", "] as middle; otherwise it returns the string itself,
    untrimmed, as street with empty middle and country.  It returns a value
    on every string. *)
Theorem parse_address_components_spec (address : string) :
  let segments := Py.split "," address in
  let parts := Py.strip <$> segments in
  Py.join "," segments = address ∧
  Forall (λ seg, Py.contains "," seg = false) segments ∧
  Forall2 (λ seg part, ∃ l r, seg = l +:+ part +:+ r ∧
                        Py.all_chars Py.isspace l = true ∧
                        Py.all_chars Py.isspace r = true ∧
                        trimmed part) segments parts ∧
  (∃ comps, _parse_address_components address = Ok comps) ∧
  ((2 ≤ length segments)%nat →
     ∃ street country,
       head parts = Some street ∧ last parts = Some country ∧
       _parse_address_components address =
         Ok (mkComponents street (Py.join ", " (removelast (tail parts))) country)) ∧
  ((length segments < 2)%nat →
     _parse_address_components address = Ok (mkComponents address "" "")).
Proof.
  intros segments parts.
  split_and!.
  - apply join_split.
  - apply split_char_pieces.
  - unfold parts. apply Forall2_fmap_r, Forall_Forall2_diag, Forall_forall.
    intros seg _. destruct (strip_spec seg) as (l & r & ?); eauto.
  - apply parse_address_components_total.
  - apply parse_address_components_ge_2.
  - apply parse_address_components_lt_2.
Qed.

Lemma parse_address_components_spec_witness :
  ((2 ≤ length (Py.split "," "1 Main St, Town , USA"))%nat ∧
   ∃ street country,
     head (Py.strip <$> Py.split "," "1 Main St, Town , USA") = Some street ∧
     last (Py.strip <$> Py.split "," "1 Main St, Town , USA") = Some country ∧
     _parse_address_components "1 Main St, Town , USA" =
       Ok (mkComponents street
             (Py.join ", " (removelast (tail (Py.strip <$> Py.split "," "1 Main St, Town , USA"))))
             country)) ∧
  ((length (Py.split "," " Unit 5") < 2)%nat ∧
   _parse_address_components " Unit 5" = Ok (mkComponents " Unit 5" "" "")).
Proof.
  split; (split; [vm_compute; lia|]).
  - apply (parse_address_components_spec "1 Main St, Town , USA").
    vm_compute. lia.
  - apply (parse_address_components_spec " Unit 5").
    vm_compute. lia.
Defined.

(** ** The record merger *)

(** Whether a literal key is in a literal list of keys, by evaluation. *)
Ltac not_key := apply (bool_decide_unpack _); vm_compute; exact I.
Ltac is_key := not_key.

Section MergeFacts.
Implicit Types (row : Row) (c : VendorContact) (comps : Components).

Lemma or_idem (a b : option string) : Py.or_ a (Py.or_ a b) = Py.or_ a b.
Proof. unfold Py.or_. by destruct (Py.truthy a). Qed.

Lemma or_falsy (a b : option string) : Py.truthy a = false → Py.or_ a b = b.
Proof. unfold Py.or_. by intros ->. Qed.

(** The address block writes its seven keys and nothing else. *)
Lemma set_address_frame comps row k :
  k ∉ address_keys → set_address comps row !! k = row !! k.
Proof.
  unfold address_keys, set_address. intros Hk.
  rewrite !lookup_insert_ne; [done|intros <-; apply Hk; is_key..].
Qed.

Lemma set_address_lookup comps row :
  let row' := set_address comps row in
  row' !! "addr1" = Some (Some (addr1 comps)) ∧
  row' !! "addr2" = Some (Some (addr2 comps)) ∧
  row' !! "addr4" = Some (Some (addr4 comps)) ∧
  row' !! "shipaddr1" = Some (Some (addr1 comps)) ∧
  row' !! "shipaddr2" = Some (Some (addr2 comps)) ∧
  row' !! "shipaddr3" = Some (row_get_or_empty row "addr3") ∧
  row' !! "shipaddr4" = Some (Some (addr4 comps)).
Proof.
  unfold set_address, row_get_or_empty. cbn zeta.
  split_and!; by simplify_map_eq.
Qed.

(** The phone and e-mail block writes its four keys and nothing else. *)
Lemma set_phone_email_frame c row k :
  k ∉ contact_keys → set_phone_email c row !! k = row !! k.
Proof.
  unfold contact_keys, set_phone_email. intros Hk.
  rewrite !lookup_insert_ne; [done|intros <-; apply Hk; is_key..].
Qed.

Lemma set_phone_email_lookup c row :
  let row' := set_phone_email c row in
  row' !! "phone" = Some (Py.or_ (phone c) (row_get_or_empty row "phone")) ∧
  row' !! "shiphone" = Some (Py.or_ (phone c) (row_get_or_empty row "shiphone")) ∧
  row' !! "email" = Some (Py.or_ (email c) (row_get_or_empty row "email")) ∧
  row' !! "shipmail" = Some (Py.or_ (email c) (row_get_or_empty row "shipmail")).
Proof.
  unfold set_phone_email, row_get_or_empty. cbn zeta.
  split_and!; by simplify_map_eq.
Qed.

(** Writing again what a row already holds changes nothing. *)
Lemma set_address_absorb comps row :
  row !! "addr1" = Some (Some (addr1 comps)) →
  row !! "addr2" = Some (Some (addr2 comps)) →
  row !! "addr4" = Some (Some (addr4 comps)) →
  row !! "shipaddr1" = Some (Some (addr1 comps)) →
  row !! "shipaddr2" = Some (Some (addr2 comps)) →
  row !! "shipaddr3" = Some (row_get_or_empty row "addr3") →
  row !! "shipaddr4" = Some (Some (addr4 comps)) →
  set_address comps row = row.
Proof.
  intros H1 H2 H3 H4 H5 H6 H7. unfold set_address. cbn zeta.
  rewrite (insert_id row "addr1") by done.
  rewrite (insert_id row "addr2") by done.
  rewrite (insert_id row "addr4") by done.
  rewrite (insert_id row "shipaddr1") by done.
  rewrite (insert_id row "shipaddr2") by done.
  rewrite (insert_id row "shipaddr3") by done.
  by rewrite (insert_id row "shipaddr4").
Qed.

Lemma set_phone_email_idem c row :
  set_phone_email c (set_phone_email c row) = set_phone_email c row.
Proof.
  destruct (set_phone_email_lookup c row) as (H1 & H2 & H3 & H4).
  set (row' := set_phone_email c row) in *.
  unfold set_phone_email at 1. cbn zeta. unfold row_get_or_empty.
  rewrite (insert_id row' "phone") by (rewrite H1; cbn; by rewrite or_idem).
  rewrite (insert_id row' "shiphone") by (rewrite H2; cbn; by rewrite or_idem).
  rewrite (insert_id row' "email") by (rewrite H3; cbn; by rewrite or_idem).
  by rewrite (insert_id row' "shipmail") by (rewrite H4; cbn; by rewrite or_idem).
Qed.

Lemma set_address_after_merge comps c row :
  let row' := set_phone_email c (set_address comps row) in
  set_address comps row' = row'.
Proof.
  intros row'.
  destruct (set_address_lookup comps row) as (H1 & H2 & H3 & H4 & H5 & H6 & H7).
  assert (Hfr : ∀ k, k ∉ contact_keys → row' !! k = set_address comps row !! k)
    by (intros; by apply set_phone_email_frame).
  assert (H3' : row' !! "addr3" = row !! "addr3").
  { rewrite Hfr by not_key. apply set_address_frame. not_key. }
  apply set_address_absorb; rewrite ?Hfr by not_key; try done.
  unfold row_get_or_empty. by rewrite H3'.
Qed.

Lemma merge_total row (contact : option VendorContact) :
  ∃ row', merge row contact = Ok row'.
Proof.
  unfold merge. destruct contact as [c|]; [|by eexists].
  destruct (Py.truthy (address c)); [|by eexists].
  destruct (parse_address_components_total (default "" (address c))) as [comps ->].
  by eexists.
Qed.

Lemma merge_idem row row' (contact : option VendorContact) :
  merge row contact = Ok row' → merge row' contact = Ok row'.
Proof.
  unfold merge. destruct contact as [c|]; [|cbn; congruence].
  destruct (Py.truthy (address c)).
  - destruct (parse_address_components_total (default "" (address c))) as [comps ->].
    cbn. intros [= <-]. by rewrite set_address_after_merge, set_phone_email_idem.
  - cbn. intros [= <-]. by rewrite set_phone_email_idem.
Qed.

End MergeFacts.

(** C3. Merging is idempotent: for every row and every contact (or none),
    the merge returns a row, and merging the same contact into that row
    again returns it unchanged, key by key. *)
Theorem merge_idempotent (row : Row) (contact : option VendorContact) :
  ∃ row', merge row contact = Ok row' ∧ merge row' contact = Ok row'.
Proof.
  destruct (merge_total row contact) as [row' H].
  exists row'. split; [done|]. by apply merge_idem in H.
Qed.

Example merge_acme :
  map_to_list <$> merge acme_row (Some acme) =
  Ok (map_to_list (list_to_map
    [("id", Some "7"); ("company", Some "Acme");
     ("addr1", Some "1 Main St"); ("addr2", Some "Town, IN 47150");
     ("addr3", Some "Suite 1"); ("addr4", Some "USA");
     ("shipaddr1", Some "1 Main St"); ("shipaddr2", Some "Town, IN 47150");
     ("shipaddr3", Some "Suite 1"); ("shipaddr4", Some "USA");
     ("phone", Some "555-0100"); ("shiphone", Some "555-0100");
     ("email", Some "a@b.c"); ("shipmail", Some "")] : Row)).
Proof. vm_compute. reflexivity. Qed.

(** C5. For every row and every contact (or none) the merge leaves the
    row's [addr3] as it was, and when the contact has an address (a
    non-empty string) [shipaddr3] receives what [row.get('addr3', '')] read
    before the merge, which is the row's [addr3] when the row has one. *)
Theorem merge_preserves_addr3 (row : Row) (contact : option VendorContact) :
  ∃ row', merge row contact = Ok row' ∧
    row' !! "addr3" = row !! "addr3" ∧
    ∀ c, contact = Some c → Py.truthy (address c) = true →
      row' !! "shipaddr3" = Some (row_get_or_empty row "addr3") ∧
      (∀ v, row !! "addr3" = Some v → row' !! "shipaddr3" = Some v).
Proof.
  unfold merge. destruct contact as [c|]; [|exists row; by split_and!].
  destruct (Py.truthy (address c)) eqn:Ha.
  - destruct (parse_address_components_total (default "" (address c))) as [comps ->].
    cbn. eexists. split; [done|].
    assert (Hship : set_phone_email c (set_address comps row) !! "shipaddr3"
                    = Some (row_get_or_empty row "addr3")).
    { rewrite set_phone_email_frame by not_key. apply set_address_lookup. }
    split.
    + rewrite set_phone_email_frame by not_key. apply set_address_frame. not_key.
    + intros ? _ _. split; [done|]. intros v Hv. rewrite Hship.
      unfold row_get_or_empty. by rewrite Hv.
  - cbn. eexists. split; [done|]. split.
    + apply set_phone_email_frame. not_key.
    + intros ? [= <-]. congruence.
Qed.

Lemma merge_preserves_addr3_witness :
  ∃ row', merge acme_row (Some acme) = Ok row' ∧
    row' !! "addr3" = Some (Some "Suite 1") ∧
    row' !! "shipaddr3" = Some (Some "Suite 1").
Proof.
  destruct (merge_preserves_addr3 acme_row (Some acme)) as (row' & Hm & H3 & Hship).
  exists row'. split; [done|]. split; [by rewrite H3|].
  destruct (Hship acme eq_refl eq_refl) as [_ Hv]. by apply Hv.
Defined.

(** ** A weakest-precondition calculus for [M] *)

Section WpRules.
Context {A B : Type}.
Implicit Types (w : World) (E : Exn → World → Prop).

Lemma wp_ret (a : A) w (Q : A → World → Prop) E : Q a w → wp (mret a) w Q E.
Proof. done. Qed.

Lemma wp_bind (m : M A) (f : A → M B) w (Q : B → World → Prop) E :
  wp m w (λ a w', wp (f a) w' Q E) E → wp (m ≫= f) w Q E.
Proof.
  unfold wp, mbind, M_bind. by destruct (m w) as [[a|e] w'].
Qed.

Lemma wp_lift (o : Outcome A) w (Q : A → World → Prop) E :
  match o with Ok a => Q a w | Raise e => E e w end → wp (lift o) w Q E.
Proof. unfold wp, lift. by destruct o. Qed.

Lemma wp_lift_safe (o : Outcome A) w (Q : A → World → Prop) :
  safe o → (∀ a, o = Ok a → Q a w) →
  wp (lift o) w Q (λ e _, is_Exception e = true).
Proof. intros Hs HQ. apply wp_lift. destruct o; [by apply HQ|done]. Qed.

Lemma wp_mono (m : M A) w (Q Q' : A → World → Prop) E E' :
  wp m w Q E → (∀ a w', Q a w' → Q' a w') → (∀ e w', E e w' → E' e w') →
  wp m w Q' E'.
Proof. unfold wp. destruct (m w) as [[a|e] w']; eauto. Qed.

Lemma wp_requests_get (req : Request) w (Q : Response → World → Prop) E :
  (∀ resp, http w (history w ++ [req]) = inr resp → Q resp (record req w)) →
  (∀ e, http w (history w ++ [req]) = inl e →
        E (RequestException e) (record req w)) →
  wp (requests_get req) w Q E.
Proof.
  intros HQ HE. unfold wp, requests_get. cbn.
  destruct (http w (history w ++ [req])); eauto.
Qed.

Lemma wp_try_except (m : M A) (h : Exn → M A) w (Q : A → World → Prop) E :
  wp m w Q (λ e w', if is_Exception e then wp (h e) w' Q E else E e w') →
  wp (try_except m h) w Q E.
Proof.
  unfold wp, try_except. destruct (m w) as [[a|e] w']; [done|].
  by destruct (is_Exception e).
Qed.

(** A computation that cannot raise returns. *)
Lemma wp_returns (m : M A) w (Q : A → World → Prop) :
  wp m w Q (λ _ _, False) → ∃ a w', m w = (Ok a, w') ∧ Q a w'.
Proof. unfold wp. destruct (m w) as [[a|e] w']; [eauto|done]. Qed.

Lemma wp_run (m : M A) w (Q : A → World → Prop) E r w' :
  wp m w Q E → m w = (r, w') →
  match r with Ok a => Q a w' | Raise e => E e w' end.
Proof. unfold wp. intros H Hrun. by rewrite Hrun in H. Qed.

End WpRules.

(** ** The pure steps raise only subclasses of [Exception] *)

Lemma safe_of_option {A} (e : Exn) (o : option A) :
  is_Exception e = true → safe (of_option e o).
Proof. by destruct o. Qed.

Lemma safe_raise_for_status (resp : Response) : safe (raise_for_status resp).
Proof. unfold raise_for_status. by case_match. Qed.

Lemma safe_json (resp : Response) : safe (json resp).
Proof. unfold json. by case_match. Qed.

Lemma safe_get (j : Json) (k : string) (d : Json) : safe (Json.get j k d).
Proof. by destruct j. Qed.

Lemma safe_item0 (j : Json) : safe (Json.item0 j).
Proof. by destruct j as [| | |[|??]|[|??]|]. Qed.

Lemma safe_item (j : Json) (k : string) : safe (Json.item j k).
Proof. destruct j; try done. cbn. by case_match. Qed.

Lemma safe_validate (lib : Lib) (j : Json) : safe (validate_optional_str lib j).
Proof. destruct j; try done; cbn; by case_match. Qed.

Lemma urlsplit_raises (lib : Lib) (url : string) (e : Exn) :
  Url.urlsplit lib url = Raise e → e = ValueError.
Proof.
  unfold Url.urlsplit, Url._checknetloc, mbind, Outcome_bind. intros H.
  repeat (case_match; simplify_eq/=); done.
Qed.

Lemma safe_clean_domain (lib : Lib) (raw : string) : safe (_clean_domain lib raw).
Proof.
  unfold _clean_domain, Url.urlparse.
  destruct (Url.urlsplit lib raw) as [p|e] eqn:E; [done|].
  by apply urlsplit_raises in E as ->.
Qed.

(** ** The e-mail scraper *)

Lemma split_head (c : ascii) (sep s : string) :
  head (Py.split (String c sep) s) = Some (before (String c sep) s).
Proof.
  rewrite split_unfold. unfold before.
  by destruct (Py.partition _ _) as [[??]|].
Qed.

Lemma partition_prefix (sep rest : string) :
  Py.partition sep (sep +:+ rest) = Some ("", rest).
Proof.
  assert (H : Py.startswith sep (sep +:+ rest) = true)
    by (apply startswith_app_iff; eauto).
  destruct (sep +:+ rest) eqn:E; cbn; rewrite H, <- ?E; by rewrite drop_app_length.
Qed.

Lemma split_prefix (c : ascii) (sep rest : string) :
  Py.split (String c sep) (String c sep +:+ rest) = "" :: Py.split (String c sep) rest.
Proof. by rewrite split_unfold, partition_prefix. Qed.

Lemma before_spec (sep s : string) :
  ∃ tail, s = before sep s +:+ tail ∧ (tail = "" ∨ Py.startswith sep tail = true).
Proof.
  unfold before. destruct (Py.partition sep s) as [[b a]|] eqn:E.
  - apply partition_Some in E. exists (sep +:+ a). split; [done|].
    right. apply startswith_app_iff. eauto.
  - exists "". by rewrite str_app_empty_r; auto.
Qed.

Lemma before_char_free (c : ascii) (s : string) :
  Py.contains (String c "") (before (String c "") s) = false.
Proof.
  unfold before. destruct (Py.partition _ s) as [[b a]|] eqn:E.
  - by eapply partition_char_before.
  - unfold Py.contains. rewrite bool_decide_eq_false, E. by intros [? [=]].
Qed.

Lemma select_one_None (sel : Tag → bool) (doc : list Tag) :
  Forall (λ t, sel t = false) doc → select_one sel doc = None.
Proof.
  unfold select_one. induction 1 as [|t doc Ht _ IH]; [done|].
  rewrite filter_cons_False; [done|]. by rewrite Ht.
Qed.

Lemma select_one_first (sel : Tag → bool) (pre post : list Tag) (t : Tag) :
  Forall (λ t, sel t = false) pre → sel t = true →
  select_one sel (pre ++ t :: post) = Some t.
Proof.
  unfold select_one. intros Hpre Ht. induction Hpre as [|x pre Hx _ IH].
  - by rewrite app_nil_l, filter_cons_True.
  - rewrite <- app_comm_cons, filter_cons_False; [done|]. by rewrite Hx.
Qed.

Lemma extract_email_eval (url : string) (w : World) :
  _extract_email_from_website url w =
  (Ok (extract_result (http w (history w ++ [ReqPage url 5]))),
   record (ReqPage url 5) w).
Proof.
  unfold _extract_email_from_website, try_except, mbind, M_bind, requests_get,
    extract_result. cbn.
  destruct (http w (history w ++ [ReqPage url 5])) as [e|resp]; [done|].
  pose proof (safe_raise_for_status resp) as Hs.
  destruct (raise_for_status resp) as [[]|e]; [|cbn in Hs; by rewrite Hs].
  destruct (select_one is_mailto_anchor (soup resp)) as [link|]; [|done].
  destruct (attr_get "href" (attrs link)) as [href|]; [|done]. cbn.
  destruct (Py.split "mailto:" href !! Z.to_nat 1) as [after|]; [|done]. cbn.
  by destruct (Py.split "?" after !! Z.to_nat 0).
Qed.

Lemma raise_for_status_error (resp : Response) :
  400 ≤ status_code resp < 600 →
  raise_for_status resp = Raise (HTTPError (status_code resp)).
Proof.
  intros [H1 H2]. unfold raise_for_status.
  apply Z.leb_le in H1. apply Z.ltb_lt in H2. by rewrite H1, H2.
Qed.

Lemma raise_for_status_ok (resp : Response) :
  ¬ (400 ≤ status_code resp < 600) → raise_for_status resp = Ok tt.
Proof.
  intros H. unfold raise_for_status.
  destruct (400 <=? status_code resp) eqn:H1; [|done].
  destruct (status_code resp <? 600) eqn:H2; [|done].
  apply Z.leb_le in H1. apply Z.ltb_lt in H2. lia.
Qed.

Lemma mailto_anchor_href (link : Tag) :
  is_mailto_anchor link = true →
  ∃ rest, attr_get "href" (attrs link) = Some ("mailto:" +:+ rest).
Proof.
  unfold is_mailto_anchor. intros [_ H]%andb_true_iff.
  destruct (attr_get "href" (attrs link)) as [v|]; [|done].
  apply startswith_app_iff in H as [rest ->]. eauto.
Qed.

Lemma mailto_address (rest : string) :
  (after ← Py.index 1 (Py.split "mailto:" ("mailto:" +:+ rest));
   Py.index 0 (Py.split "?" after))
  = Some (before "?" (before "mailto:" rest)).
Proof.
  rewrite split_prefix. unfold Py.index. cbn [Z.ltb Z.compare].
  change (("" :: ?l) !! Z.to_nat 1) with (l !! 0%nat).
  rewrite <- head_lookup, split_head. cbn [mbind option_bind].
  change (Z.to_nat 0) with 0%nat. by rewrite <- head_lookup, split_head.
Qed.

(** C7 as the claim states it fails: a status that is no success, 300 for
    one, is no failure to [raise_for_status]; a page that comes with it is
    searched like any other, and its mailto anchor gives an address. *)
Lemma status_300_is_scraped :
  status_code (mkResponse 300 None [mail_link]) = 300 ∧
  _extract_email_from_website "https://acme.com" w_300
  = (Ok (Some "info@acme.com"), record (ReqPage "https://acme.com" 5) w_300).
Proof. split; reflexivity. Qed.

(** Of a repeated [href] the last value counts. *)
Example last_href_counts :
  is_mailto_anchor two_hrefs = true ∧
  attr_get "href" (attrs two_hrefs) = Some "mailto:last@acme.com".
Proof. split; reflexivity. Qed.

(** C7, amended. For every URL and every state of the world the scraper
    returns to its caller and never raises.  It returns [None] when the
    fetch fails (a time-out is one such failure), when the response has an
    error status, a 4xx or a 5xx, the ones for which [raise_for_status]
    raises, and when no element of the page is an [a] whose [href] starts
    with ["mailto:"].  With any other status, a 3xx that [requests] hands
    back included, the page is searched: when there is such an element, the
    first in document order decides, and the result is the text of its
    [href] after the leading ["mailto:"] up to the first ["?"] (and up to a
    further ["mailto:"], should the [href] hold one before any ["?"]); it
    holds no ["?"]. *)
Theorem extract_email_spec (url : string) (w : World) :
  let answer := http w (history w ++ [ReqPage url 5]) in
  ∃ r, _extract_email_from_website url w = (Ok r, record (ReqPage url 5) w) ∧
    (∀ e, answer = inl e → r = None) ∧
    (∀ resp, answer = inr resp → 400 ≤ status_code resp < 600 → r = None) ∧
    (∀ resp, answer = inr resp →
       Forall (λ t, is_mailto_anchor t = false) (soup resp) → r = None) ∧
    (∀ resp pre link post,
       answer = inr resp → ¬ (400 ≤ status_code resp < 600) →
       soup resp = pre ++ link :: post →
       Forall (λ t, is_mailto_anchor t = false) pre →
       is_mailto_anchor link = true →
       ∃ rest addr tail,
         attr_get "href" (attrs link) = Some ("mailto:" +:+ rest) ∧
         r = Some addr ∧ addr = before "?" (before "mailto:" rest) ∧
         Py.contains "?" addr = false ∧
         rest = addr +:+ tail ∧
         (tail = "" ∨ Py.startswith "?" tail = true
          ∨ Py.startswith "mailto:" tail = true) ∧
         (Py.contains "mailto:" rest = false → addr = before "?" rest)).
Proof.
  intros answer. eexists. split; [apply extract_email_eval|].
  fold answer. split_and!.
  - by intros e ->.
  - intros resp -> Hst. cbn. by rewrite raise_for_status_error.
  - intros resp -> Hno. cbn. rewrite select_one_None by done.
    by destruct (raise_for_status resp).
  - intros resp pre link post -> Hst Hsoup Hpre Hlink. cbn.
    rewrite raise_for_status_ok, Hsoup, select_one_first by done.
    destruct (mailto_anchor_href link Hlink) as [rest Hhref].
    rewrite Hhref. cbn [mbind option_bind].
    exists rest, (before "?" (before "mailto:" rest)).
    destruct (before_spec "mailto:" rest) as (t1 & Ht1 & Hc1).
    destruct (before_spec "?" (before "mailto:" rest)) as (t2 & Ht2 & Hc2).
    exists (t2 +:+ t1).
    split_and!; [done|apply mailto_address|done|apply before_char_free| | |].
    + by rewrite <- str_app_assoc, <- Ht2.
    + destruct Hc2 as [->|Hc2].
      * rewrite str_app_nil_l. destruct Hc1; auto.
      * right; left. apply startswith_app_iff in Hc2 as [x ->].
        by rewrite str_app_assoc, str_app_cons.
    + intros Hno. unfold before at 2.
      unfold Py.contains in Hno. rewrite bool_decide_eq_false in Hno.
      destruct (Py.partition "mailto:" rest) as [[??]|]; [|done].
      destruct Hno. eauto.
Qed.

(** ** The batch driver *)

Section DriverFacts.
Context (lib : Lib).
Implicit Types (w : World) (results : gmap string VendorContact).

Lemma wp_extract_email (url : string) w (Q : option string → World → Prop) E :
  Q (extract_result (http w (history w ++ [ReqPage url 5]))) (record (ReqPage url 5) w) →
  wp (_extract_email_from_website url) w Q E.
Proof. unfold wp. by rewrite extract_email_eval. Qed.

Lemma clean_domain_Ok (raw site : string) :
  _clean_domain lib raw = Ok site →
  ∃ parts, Url.urlparse lib raw = Ok parts ∧
           site = scheme parts +:+ "://" +:+ netloc parts.
Proof.
  unfold _clean_domain. destruct (Url.urlparse lib raw) as [parts|]; [|done].
  cbn. intros [= <-]. eauto.
Qed.

Lemma place_details_post (api_key : string) (loc : Location) (radius : Z)
    (nm : string) w :
  wp (place_details api_key loc radius nm) w
     (λ _ _, True) (λ e _, is_Exception e = true).
Proof.
  unfold place_details.
  apply wp_bind, wp_requests_get; [intros resp _|done].
  apply wp_bind, wp_lift_safe; [apply safe_raise_for_status|intros [] _].
  apply wp_bind, wp_lift_safe; [apply safe_json|intros body _].
  apply wp_bind, wp_lift_safe; [apply safe_get|intros items _].
  destruct (Json.truthy items); cbn [negb]; [|by apply wp_ret].
  apply wp_bind, wp_lift_safe; [apply safe_item0|intros first _].
  apply wp_bind, wp_lift_safe; [apply safe_item|intros place_id _].
  apply wp_bind, wp_requests_get; [intros dresp _|done].
  apply wp_bind, wp_lift_safe; [apply safe_json|intros dbody _].
  apply wp_bind, wp_lift_safe; [apply safe_get|intros det _].
  by apply wp_ret.
Qed.

Lemma clean_site_post (raw_site : Json) :
  match (if Json.truthy raw_site then
           match raw_site with
           | JStr s => site ← _clean_domain lib s; Ok (Some site)
           | _ => Raise AttributeError
           end
         else Ok None) with
  | Ok o => ∀ site, o = Some site →
      ∃ raw parts, Url.urlparse lib raw = Ok parts ∧
                   site = scheme parts +:+ "://" +:+ netloc parts
  | Raise e => is_Exception e = true
  end.
Proof.
  destruct (Json.truthy raw_site); [|done].
  destruct raw_site as [| | |s| |]; try done.
  pose proof (safe_clean_domain lib s) as Hs.
  destruct (_clean_domain lib s) as [site|e] eqn:Es; [|done]. cbn.
  intros ? [= <-]. apply clean_domain_Ok in Es as (parts & ? & ?). eauto.
Qed.

Lemma contact_from_post (nm : string) (det : Json) w :
  wp (contact_from lib nm det) w
     (λ c _, name c = nm ∧ canonical lib c)
     (λ e _, is_Exception e = true).
Proof.
  unfold contact_from.
  apply wp_bind, wp_lift_safe; [apply safe_get|intros raw_site _].
  apply wp_bind, wp_lift. pose proof (clean_site_post raw_site) as Hsite.
  destruct (if Json.truthy raw_site then _ else _) as [clean_site|e]; [|done].
  apply wp_bind, wp_lift_safe; [apply safe_get|intros raw_address _].
  apply wp_bind, wp_lift_safe; [apply safe_get|intros raw_phone _].
  apply wp_bind, wp_lift_safe; [apply safe_validate|intros address _].
  apply wp_bind, wp_lift_safe; [apply safe_validate|intros phone _].
  cbn [website]. destruct (Py.truthy clean_site).
  - apply wp_bind, wp_extract_email. by apply wp_ret.
  - by apply wp_ret.
Qed.

(** The [try] body returns a contact for the name it was given, with a
    canonical website, or raises a subclass of [Exception]. *)
Lemma lookup_post (api_key : string) (loc : Location) (radius : Z) (nm : string) w :
  wp (lookup lib api_key loc radius nm) w
     (λ c _, name c = nm ∧ canonical lib c)
     (λ e _, is_Exception e = true).
Proof.
  unfold lookup. apply wp_bind.
  eapply wp_mono; [apply place_details_post| |done].
  intros [det|] w' _; [apply contact_from_post|].
  apply wp_ret. split; [done|]. by intros site.
Qed.

Lemma canonical_empty (nm : string) : canonical lib (empty_contact nm).
Proof. by intros site. Qed.

Lemma lookup_raises_Exception api_key loc radius nm w e w' :
  lookup lib api_key loc radius nm w = (Raise e, w') → is_Exception e = true.
Proof. intros H. exact (wp_run _ _ _ _ _ _ (lookup_post api_key loc radius nm w) H). Qed.

(** A failing [try] body leaves the empty contact under the name. *)
Lemma iteration_failure api_key loc radius results nm w e w' :
  lookup lib api_key loc radius nm w = (Raise e, w') →
  iteration lib api_key loc radius results nm w
  = (Ok (<[nm := empty_contact nm]> results), w').
Proof.
  intros H. pose proof (lookup_raises_Exception _ _ _ _ _ _ _ H) as He.
  unfold iteration, try_except, mbind, M_bind. by rewrite H, He.
Qed.

Lemma iteration_success api_key loc radius results nm w c w' :
  lookup lib api_key loc radius nm w = (Ok c, w') →
  iteration lib api_key loc radius results nm w = (Ok (<[nm := c]> results), w').
Proof. intros H. unfold iteration, try_except, mbind, M_bind. by rewrite H. Qed.

(** An iteration never raises and files exactly one contact, under the
    name it was given. *)
Lemma iteration_post api_key loc radius results nm w :
  wp (iteration lib api_key loc radius results nm) w
     (λ res _, ∃ c, res = <[nm := c]> results ∧ name c = nm ∧ canonical lib c)
     (λ _ _, False).
Proof.
  unfold wp.
  destruct (lookup lib api_key loc radius nm w) as [[c|e] w'] eqn:H.
  - rewrite (iteration_success _ _ _ _ _ _ _ _ H).
    pose proof (wp_run _ _ _ _ _ _ (lookup_post api_key loc radius nm w) H) as [??].
    eauto.
  - rewrite (iteration_failure _ _ _ _ _ _ _ _ H).
    exists (empty_contact nm). eauto using canonical_empty.
Qed.

Lemma loop_cons api_key loc radius nm rest results w :
  loop lib api_key loc radius (nm :: rest) results w =
  match iteration lib api_key loc radius results nm w with
  | (Ok results', w') => loop lib api_key loc radius rest results' w'
  | (Raise e, w') => (Raise e, w')
  end.
Proof. reflexivity. Qed.

(** The loop never raises; it files a contact under every name it is given
    and touches no other key. *)
Lemma loop_post api_key loc radius names results w :
  wp (loop lib api_key loc radius names results) w
     (λ res _,
        dom res = dom results ∪ list_to_set names ∧
        (∀ k, k ∉ names → res !! k = results !! k) ∧
        (∀ k c, res !! k = Some c →
           results !! k = Some c ∨ (k ∈ names ∧ name c = k ∧ canonical lib c)))
     (λ _ _, False).
Proof.
  revert results w. induction names as [|nm rest IH]; intros results w.
  - apply wp_ret. split_and!; [set_solver|done|auto].
  - cbn [loop]. apply wp_bind.
    eapply wp_mono; [apply iteration_post| |done].
    intros res w' (c & -> & Hname & Hcan). cbn beta.
    eapply wp_mono; [apply IH| |done].
    intros res w'' (Hdom & Hframe & Hin). split_and!.
    + rewrite Hdom, dom_insert_L. set_solver.
    + intros k Hk. apply not_elem_of_cons in Hk as [Hne Hk].
      rewrite Hframe by done. by rewrite lookup_insert_ne.
    + intros k c' Hk. destruct (Hin k c' Hk) as [Hold|(? & ? & ?)].
      * destruct (decide (nm = k)) as [->|Hne].
        -- rewrite lookup_insert_eq in Hold. injection Hold as <-.
           right. split_and!; [left|done..].
        -- rewrite lookup_insert_ne in Hold by done. by left.
      * right. split_and!; [by right|done..].
Qed.

(** With a key and a geocoded anchor the driver is its loop. *)
Lemma find_vendor_contacts_eval names location_str radius google_api_key w
    (api_key : string) (loc : Location) :
  api_key_of google_api_key w = Some api_key → api_key ≠ "" →
  geocoder w (history w ++ [ReqGeocode (default default_location location_str)])
    = inr (Some loc) →
  find_vendor_contacts lib names location_str radius google_api_key w =
  loop lib api_key loc radius names ∅
    (record (ReqGeocode (default default_location location_str)) w).
Proof.
  unfold api_key_of. intros Hkey Hne Hgeo.
  unfold find_vendor_contacts, getenv, mbind, M_bind. rewrite Hkey.
  destruct api_key as [|a k]; [done|].
  unfold _geocode_location, geocode, mbind, M_bind. cbn [history record].
  by rewrite Hgeo.
Qed.

Lemma find_vendor_contacts_no_key names location_str radius google_api_key w :
  Py.truthy (api_key_of google_api_key w) = false →
  find_vendor_contacts lib names location_str radius google_api_key w
  = (Raise EnvironmentError, w).
Proof.
  unfold api_key_of. intros Hkey.
  unfold find_vendor_contacts, getenv, mbind, M_bind.
  by destruct (Py.or_ _ _) as [[|??]|].
Qed.

End DriverFacts.

(** The failures of the search stage, each one an exception of the [try]
    body: a network error, a body that is not JSON, a candidate without a
    [place_id]. *)
Lemma lookup_network_error (lib : Lib) (api_key : string) (loc : Location)
    (radius : Z) (nm : string) (w : World) (e : NetError) :
  http w (history w ++ [ReqTextSearch nm loc radius api_key]) = inl e →
  lookup lib api_key loc radius nm w
  = (Raise (RequestException e), record (ReqTextSearch nm loc radius api_key) w).
Proof.
  intros Hans. unfold lookup, place_details, mbind, M_bind, requests_get.
  cbn [history record]. by rewrite Hans.
Qed.

Lemma lookup_parse_error (lib : Lib) (api_key : string) (loc : Location)
    (radius : Z) (nm : string) (w : World) (resp : Response) :
  http w (history w ++ [ReqTextSearch nm loc radius api_key]) = inr resp →
  ¬ (400 ≤ status_code resp < 600) → json_body resp = None →
  lookup lib api_key loc radius nm w
  = (Raise JSONDecodeError, record (ReqTextSearch nm loc radius api_key) w).
Proof.
  intros Hans Hst%raise_for_status_ok Hbody.
  unfold lookup, place_details, mbind, M_bind, requests_get, lift, json.
  cbn [history record]. by rewrite Hans, Hst, Hbody.
Qed.

Lemma lookup_missing_place_id (lib : Lib) (api_key : string) (loc : Location)
    (radius : Z) (nm : string) (w : World) (resp : Response)
    (fields first : list (string * Json)) (others : list Json) :
  http w (history w ++ [ReqTextSearch nm loc radius api_key]) = inr resp →
  ¬ (400 ≤ status_code resp < 600) → json_body resp = Some (JObj fields) →
  Json.assoc "results" fields = Some (JArr (JObj first :: others)) →
  Json.assoc "place_id" first = None →
  lookup lib api_key loc radius nm w
  = (Raise KeyError, record (ReqTextSearch nm loc radius api_key) w).
Proof.
  intros Hans Hst%raise_for_status_ok Hbody Hres Hid.
  unfold lookup, place_details, mbind, M_bind, requests_get, lift, json.
  cbn [history record]. rewrite Hans, Hst, Hbody. cbn. rewrite Hres. cbn.
  by rewrite Hid.
Qed.

(** C2. Whatever the [try] body of a name's iteration raises, in the search
    stage or in the details stage, the iteration catches: it files the empty
    contact under that name and returns; the loop goes on with the remaining
    names from there, returns a mapping that has every name of the list, and
    that mapping holds the empty contact for the failing name unless a later
    occurrence of the same name replaces it. *)
Theorem failure_is_isolated (lib : Lib) (api_key : string) (loc : Location)
    (radius : Z) (nm : string) (rest : list string)
    (results : gmap string VendorContact) (w w1 : World) (e : Exn) :
  lookup lib api_key loc radius nm w = (Raise e, w1) →
  iteration lib api_key loc radius results nm w
    = (Ok (<[nm := empty_contact nm]> results), w1) ∧
  loop lib api_key loc radius (nm :: rest) results w
    = loop lib api_key loc radius rest (<[nm := empty_contact nm]> results) w1 ∧
  ∃ res w',
    loop lib api_key loc radius (nm :: rest) results w = (Ok res, w') ∧
    (∀ n, n ∈ nm :: rest → is_Some (res !! n)) ∧
    (nm ∉ rest → res !! nm = Some (empty_contact nm)).
Proof.
  intros Hfail.
  pose proof (iteration_failure lib _ _ _ results _ _ _ _ Hfail) as Hit.
  split; [done|]. rewrite loop_cons, Hit. split; [done|].
  destruct (wp_returns _ _ _ (loop_post lib api_key loc radius rest
              (<[nm := empty_contact nm]> results) w1))
    as (res & w' & Hrun & Hdom & Hframe & _).
  exists res, w'. split_and!; [done| |].
  - intros n Hn. apply elem_of_dom. rewrite Hdom, dom_insert_L. set_solver.
  - intros Hnot. rewrite Hframe by done. apply lookup_insert_eq.
Qed.

(** ** A lookup without candidates *)

Lemma lookup_no_candidates (lib : Lib) (api_key : string) (loc : Location)
    (radius : Z) (nm : string) (w : World) (resp : Response) (body : Json) :
  http w (history w ++ [ReqTextSearch nm loc radius api_key]) = inr resp →
  ¬ (400 ≤ status_code resp < 600) →
  json_body resp = Some body →
  Json.get body "results" (JArr []) = Ok (JArr []) →
  lookup lib api_key loc radius nm w
  = (Ok (empty_contact nm), record (ReqTextSearch nm loc radius api_key) w).
Proof.
  intros Hans Hst%raise_for_status_ok Hbody Hget.
  unfold lookup, place_details, mbind, M_bind, requests_get, lift, json.
  cbn [history record]. by rewrite Hans, Hst, Hbody, Hget.
Qed.

Lemma merge_empty_contact (nm : string) (row : Row) :
  merge row (Some (empty_contact nm)) = Ok (set_phone_email (empty_contact nm) row).
Proof. reflexivity. Qed.

Lemma set_phone_email_empty_keeps (nm : string) (row : Row) (k : string)
    (v : option string) :
  row !! k = Some v → set_phone_email (empty_contact nm) row !! k = Some v.
Proof.
  intros Hk.
  destruct (set_phone_email_lookup (empty_contact nm) row) as (H1 & H2 & H3 & H4).
  destruct (decide (k ∈ contact_keys)) as [Hin|Hout].
  - unfold contact_keys in Hin. unfold row_get_or_empty in *.
    repeat (apply elem_of_cons in Hin as [->|Hin]);
      [rewrite H1|rewrite H2|rewrite H3|rewrite H4|by apply elem_of_nil in Hin];
      by rewrite Hk.
  - by rewrite set_phone_email_frame.
Qed.

Lemma set_phone_email_empty_id (nm : string) (row : Row) :
  (∀ k, k ∈ contact_keys → is_Some (row !! k)) →
  set_phone_email (empty_contact nm) row = row.
Proof.
  intros Hkeys. apply map_eq. intros k.
  destruct (row !! k) as [v|] eqn:Hk.
  - by apply set_phone_email_empty_keeps.
  - rewrite set_phone_email_frame; [done|].
    intros Hin. destruct (Hkeys k Hin) as [? ?]. congruence.
Qed.

(** C6. When the text search for a name answers with an empty list of
    candidates, the iteration files under that name the contact that has
    the name and neither address, phone, e-mail nor website; and merging
    that contact into any row returns a row in which every field the row
    had, the address, shipping-address, phone and e-mail fields among them,
    has the value it had before (a row with the four phone and e-mail
    columns comes back identical). *)
Theorem no_candidates_contact (lib : Lib) (api_key : string) (loc : Location)
    (radius : Z) (nm : string) (results : gmap string VendorContact)
    (w : World) (resp : Response) (body : Json) :
  http w (history w ++ [ReqTextSearch nm loc radius api_key]) = inr resp →
  ¬ (400 ≤ status_code resp < 600) →
  json_body resp = Some body →
  Json.get body "results" (JArr []) = Ok (JArr []) →
  ∃ c w',
    lookup lib api_key loc radius nm w = (Ok c, w') ∧
    iteration lib api_key loc radius results nm w = (Ok (<[nm := c]> results), w') ∧
    name c = nm ∧ address c = None ∧ phone c = None ∧ email c = None ∧
    website c = None ∧
    ∀ row : Row, ∃ row',
      merge row (Some c) = Ok row' ∧
      (∀ k v, row !! k = Some v → row' !! k = Some v) ∧
      ((∀ k, k ∈ contact_keys → is_Some (row !! k)) → row' = row).
Proof.
  intros Hans Hst Hbody Hget.
  pose proof (lookup_no_candidates lib _ _ _ _ _ _ _ Hans Hst Hbody Hget) as Hl.
  exists (empty_contact nm), (record (ReqTextSearch nm loc radius api_key) w).
  split_and!; [done|by apply iteration_success|done..|].
  intros row. eexists. split; [apply merge_empty_contact|]. split.
  - apply set_phone_email_empty_keeps.
  - apply set_phone_email_empty_id.
Qed.

(** ** Website canonicalisation *)

Section UrlFacts.
Context (lib : Lib).

Lemma splitnetloc_no_delim (s n r : string) :
  Url._splitnetloc s = (n, r) → no_delim n.
Proof.
  unfold no_delim. revert n r. induction s as [|c s IH]; intros n r; cbn.
  - by intros [= <- <-].
  - destruct (Url.is_delim c) eqn:Ec; [by intros [= <- <-]|].
    destruct (Url._splitnetloc s) as [n' r']. intros [= <- <-]. cbn.
    rewrite Ec. cbn. by eapply IH.
Qed.

(** How [urlsplit] finds scheme and netloc. *)
Lemma urlsplit_Ok (raw : string) (parts : ParseResult) :
  Url.urlsplit lib raw = Ok parts →
  ∃ url,
    (scheme parts = "" ∧ url = sanitized raw ∨
     ∃ c0 pre, Py.partition ":" (sanitized raw) = Some (String c0 pre, url) ∧
               scheme parts = Url.lower (String c0 pre)) ∧
    netloc parts =
      (if Py.startswith "//" url then (Url._splitnetloc (Py.drop 2 url)).1 else "").
Proof.
  unfold Url.urlsplit, sanitized.
  set (url0 := Url.remove_unsafe (Url.lstrip_c0 raw)).
  intros Hok.
  destruct (Py.partition ":" url0) as [[[|c0 pre] rest]|] eqn:Ep;
    [|destruct (Url.is_ascii_alpha c0 && Py.all_chars Url.is_scheme_char (String c0 pre))|].
  all: match type of Hok with
       | context [Py.startswith "//" ?u] => exists u
       end.
  all: unfold mbind, Outcome_bind in Hok;
    destruct (Py.startswith "//" _) eqn:Es;
    [destruct (Url._splitnetloc _) as [n r] eqn:En|];
    repeat (case_match; simplify_eq/=); eauto 10.
Qed.

Lemma urlsplit_netloc_no_delim (raw : string) (parts : ParseResult) :
  Url.urlsplit lib raw = Ok parts → no_delim (netloc parts).
Proof.
  intros (url & _ & ->)%urlsplit_Ok.
  destruct (Py.startswith "//" url); [|done].
  destruct (Url._splitnetloc (Py.drop 2 url)) as [n r] eqn:E.
  by eapply splitnetloc_no_delim.
Qed.

Lemma lower_nonempty (c : ascii) (s : string) : Url.lower (String c s) ≠ "".
Proof. done. Qed.

(** Without a scheme and without two leading slashes there is no netloc. *)
Lemma urlsplit_scheme_less (raw : string) (parts : ParseResult) :
  Url.urlsplit lib raw = Ok parts → scheme parts = "" →
  Py.startswith "//" (sanitized raw) = false → netloc parts = "".
Proof.
  intros (url & [[_ ->]|(c0 & pre & _ & Hs)] & ->)%urlsplit_Ok Hscheme Hno.
  - by rewrite Hno.
  - rewrite Hs in Hscheme. by apply lower_nonempty in Hscheme.
Qed.

Lemma clean_domain_eq (raw : string) (parts : ParseResult) :
  Url.urlparse lib raw = Ok parts →
  _clean_domain lib raw = Ok (scheme parts +:+ "://" +:+ netloc parts).
Proof. unfold _clean_domain. by intros ->. Qed.

Lemma clean_domain_truthy (raw site : string) :
  _clean_domain lib raw = Ok site → Py.truthy (Some site) = true.
Proof.
  unfold _clean_domain. destruct (Url.urlparse lib raw) as [parts|]; [|done].
  cbn. intros [= <-]. by destruct (scheme parts).
Qed.

(** Lines 147-159 on details that carry a website, when neither the
    canonicaliser nor pydantic raises: the contact holds the canonical
    website and the scraper has been sent to it. *)
Lemma contact_from_eval (nm : string) (det : Json) (raw site : string)
    (address phone : option string) (w : World) :
  Json.get det "website" JNull = Ok (JStr raw) → raw ≠ "" →
  _clean_domain lib raw = Ok site →
  (a ← Json.get det "formatted_address" JNull; validate_optional_str lib a)
    = Ok address →
  (p ← Json.get det "formatted_phone_number" JNull; validate_optional_str lib p)
    = Ok phone →
  contact_from lib nm det w =
  (Ok (mkVendorContact nm address phone
         (extract_result (http w (history w ++ [ReqPage site 5]))) (Some site)),
   record (ReqPage site 5) w).
Proof.
  intros Hsite Hraw Hclean Haddr Hphone.
  pose proof (clean_domain_truthy _ _ Hclean) as Htr.
  unfold contact_from, mbind, M_bind, lift. rewrite Hsite.
  cbn [Json.truthy]. rewrite bool_decide_eq_false_2 by done. cbn [negb].
  rewrite Hclean. cbn [mbind Outcome_bind].
  unfold mbind, Outcome_bind in Haddr, Hphone.
  destruct (Json.get det "formatted_address" JNull) as [a|]; [|done].
  destruct (Json.get det "formatted_phone_number" JNull) as [p|]; [|done].
  rewrite Haddr, Hphone. cbn [website]. rewrite Htr. cbn [default].
  by rewrite extract_email_eval.
Qed.

(** Whenever lines 147-159 return a contact for details that carry a
    website, the contact holds its canonical form. *)
Lemma contact_from_website (nm : string) (det : Json) (raw : string)
    (w w' : World) (c : VendorContact) :
  Json.get det "website" JNull = Ok (JStr raw) → raw ≠ "" →
  contact_from lib nm det w = (Ok c, w') →
  ∃ site, _clean_domain lib raw = Ok site ∧ website c = Some site.
Proof.
  intros Hsite Hraw.
  unfold contact_from, mbind, M_bind, lift. rewrite Hsite.
  cbn [Json.truthy]. rewrite bool_decide_eq_false_2 by done. cbn [negb].
  destruct (_clean_domain lib raw) as [site|] eqn:Hclean; [|done].
  pose proof (clean_domain_truthy _ _ Hclean) as Htr.
  cbn [mbind Outcome_bind].
  destruct (Json.get det "formatted_address" JNull) as [a|]; [|done].
  destruct (Json.get det "formatted_phone_number" JNull) as [p|]; [|done].
  destruct (validate_optional_str lib a); [|done].
  destruct (validate_optional_str lib p); [|done].
  cbn [website]. rewrite Htr. cbn [default].
  rewrite extract_email_eval. intros [= <- <-]. eauto.
Qed.

End UrlFacts.

Lemma find_vendor_contacts_Ok_inv (lib : Lib) (names : list string)
    (location_str : option string) (radius : Z) (google_api_key : option string)
    (w w' : World) (results : gmap string VendorContact) :
  find_vendor_contacts lib names location_str radius google_api_key w
    = (Ok results, w') →
  ∃ api_key loc w1, loop lib api_key loc radius names ∅ w1 = (Ok results, w').
Proof.
  unfold find_vendor_contacts, getenv, mbind, M_bind.
  destruct (Py.or_ _ _) as [[|a k]|]; [done| |done].
  unfold _geocode_location, geocode, mbind, M_bind.
  destruct (geocoder w _) as [e|[loc|]]; [done| |done].
  cbn. eauto.
Qed.

Example clean_example (lib : Lib) :
  _clean_domain lib "https://example.com/page?x=1" = Ok "https://example.com".
Proof. reflexivity. Qed.

Example clean_upper (lib : Lib) :
  _clean_domain lib " HTTP://User@Example.com:80#f" = Ok "http://User@Example.com:80".
Proof. reflexivity. Qed.

Example clean_port_as_scheme (lib : Lib) :
  _clean_domain lib "example.com:8080/path" = Ok "example.com://".
Proof. reflexivity. Qed.

Example clean_no_scheme (lib : Lib) : _clean_domain lib "example.com/path" = Ok "://".
Proof. reflexivity. Qed.

Example clean_relative (lib : Lib) :
  _clean_domain lib "//example.com/path" = Ok "://example.com".
Proof. reflexivity. Qed.

Lemma loop_app (lib : Lib) (api_key : string) (loc : Location) (radius : Z)
    (pre post : list string) (results : gmap string VendorContact) (w : World) :
  loop lib api_key loc radius (pre ++ post) results w =
  match loop lib api_key loc radius pre results w with
  | (Ok results', w') => loop lib api_key loc radius post results' w'
  | (Raise e, w') => (Raise e, w')
  end.
Proof.
  revert results w. induction pre as [|nm pre IH]; intros results w; [done|].
  rewrite <- app_comm_cons, !loop_cons.
  destruct (iteration lib api_key loc radius results nm w) as [[res|e] w1]; [|done].
  apply IH.
Qed.

(** An iteration whose details carry a website that [_clean_domain] takes,
    and an address and a phone number that pydantic takes, files the contact
    with these and the canonical website, and what the scraper found
    there. *)
Lemma iteration_website (lib : Lib) (api_key : string) (loc : Location)
    (radius : Z) (results : gmap string VendorContact) (nm : string)
    (det : Json) (raw site : string) (address phone : option string)
    (w w1 : World) :
  place_details api_key loc radius nm w = (Ok (Some det), w1) →
  Json.get det "website" JNull = Ok (JStr raw) → raw ≠ "" →
  _clean_domain lib raw = Ok site →
  (a ← Json.get det "formatted_address" JNull; validate_optional_str lib a)
    = Ok address →
  (p ← Json.get det "formatted_phone_number" JNull; validate_optional_str lib p)
    = Ok phone →
  iteration lib api_key loc radius results nm w =
  (Ok (<[nm := mkVendorContact nm address phone
                 (extract_result (http w1 (history w1 ++ [ReqPage site 5])))
                 (Some site)]> results),
   record (ReqPage site 5) w1).
Proof.
  intros Hdet Hsite Hraw Hclean Ha Hp. apply iteration_success.
  unfold lookup. unfold mbind at 1. unfold M_bind. rewrite Hdet.
  by apply contact_from_eval with (raw := raw).
Qed.

(** C8 as the claim states it fails: what is kept is the netloc, which
    holds the user and the port beside the host; and a contact stored for
    details that carried a website can be without a website: here
    [urlparse] raises on it and the empty contact is stored. *)
Lemma stored_website_not_always_canonical_host :
  _clean_domain strict_lib "https://user:pw@example.com:8080/p?q#f"
    = Ok "https://user:pw@example.com:8080" ∧
  place_details "k" loc0 5000 "Acme" w_bad
    = (Ok (Some bad_site_details),
       mkWorld (environ w_bad) (geocoder w_bad) (http w_bad)
         [ReqTextSearch "Acme" loc0 5000 "k";
          ReqDetails (JStr "P1") details_fields "k"]) ∧
  Json.get bad_site_details "website" JNull = Ok (JStr "http://[::1") ∧
  (iteration strict_lib "k" loc0 5000 ∅ "Acme" w_bad).1
    = Ok {[ "Acme" := empty_contact "Acme" ]}.
Proof. split_and!; vm_compute; reflexivity. Qed.

(** C8, amended. What [_clean_domain] returns is the scheme and the netloc
    (the authority: the host with any user and port) that [urlparse] finds
    in the URL, joined by ["://"]; the netloc holds none of [/ ? #], so
    path, query and fragment are gone.  ["https://example.com/page?x=1"]
    becomes ["https://example.com"].  A contact built from details that
    carry a website holds this form of it, and so does every contact with a
    website in a mapping that [find_vendor_contacts] returns.  When the
    details fetched for a name carry a non-empty website on which
    [_clean_domain] does not raise, and an address and a phone number that
    pass validation, the iteration files under the name the contact with
    exactly that canonical website, and the run returns it under the name
    unless a later entry of the list is the same name. *)
Theorem clean_domain_canonical (lib : Lib) :
  (∀ raw site, _clean_domain lib raw = Ok site →
     ∃ parts, Url.urlparse lib raw = Ok parts ∧
              site = scheme parts +:+ "://" +:+ netloc parts ∧
              no_delim (netloc parts)) ∧
  _clean_domain lib "https://example.com/page?x=1" = Ok "https://example.com" ∧
  (∀ nm det raw w w' c,
     Json.get det "website" JNull = Ok (JStr raw) → raw ≠ "" →
     contact_from lib nm det w = (Ok c, w') →
     ∃ site, _clean_domain lib raw = Ok site ∧ website c = Some site) ∧
  (∀ names location_str radius google_api_key w w' results,
     find_vendor_contacts lib names location_str radius google_api_key w
       = (Ok results, w') →
     ∀ k c site, results !! k = Some c → website c = Some site →
       ∃ raw, _clean_domain lib raw = Ok site) ∧
  (∀ api_key loc radius results nm det raw site address phone w w1,
     place_details api_key loc radius nm w = (Ok (Some det), w1) →
     Json.get det "website" JNull = Ok (JStr raw) → raw ≠ "" →
     _clean_domain lib raw = Ok site →
     (a ← Json.get det "formatted_address" JNull; validate_optional_str lib a)
       = Ok address →
     (p ← Json.get det "formatted_phone_number" JNull; validate_optional_str lib p)
       = Ok phone →
     iteration lib api_key loc radius results nm w =
     (Ok (<[nm := mkVendorContact nm address phone
                    (extract_result (http w1 (history w1 ++ [ReqPage site 5])))
                    (Some site)]> results),
      record (ReqPage site 5) w1)) ∧
  (∀ pre nm post location_str radius google_api_key w api_key loc
     found w_pre det raw site address phone w1,
     api_key_of google_api_key w = Some api_key → api_key ≠ "" →
     geocoder w (history w ++ [ReqGeocode (default default_location location_str)])
       = inr (Some loc) →
     nm ∉ post →
     loop lib api_key loc radius pre ∅
       (record (ReqGeocode (default default_location location_str)) w)
       = (Ok found, w_pre) →
     place_details api_key loc radius nm w_pre = (Ok (Some det), w1) →
     Json.get det "website" JNull = Ok (JStr raw) → raw ≠ "" →
     _clean_domain lib raw = Ok site →
     (a ← Json.get det "formatted_address" JNull; validate_optional_str lib a)
       = Ok address →
     (p ← Json.get det "formatted_phone_number" JNull; validate_optional_str lib p)
       = Ok phone →
     ∃ results w',
       find_vendor_contacts lib (pre ++ nm :: post) location_str radius
         google_api_key w = (Ok results, w') ∧
       results !! nm =
         Some (mkVendorContact nm address phone
                 (extract_result (http w1 (history w1 ++ [ReqPage site 5])))
                 (Some site))).
Proof.
  split_and!.
  - intros raw site (parts & Hp & ->)%clean_domain_Ok.
    exists parts. split_and!; [done..|]. by eapply urlsplit_netloc_no_delim.
  - reflexivity.
  - intros. by eapply contact_from_website.
  - intros names location_str radius gk w w' results
      (api_key & loc & w1 & Hloop)%find_vendor_contacts_Ok_inv k c site Hk Hsite.
    pose proof (wp_run _ _ _ _ _ _ (loop_post lib api_key loc radius names ∅ w1) Hloop)
      as (_ & _ & Hin).
    destruct (Hin k c Hk) as [Hold|(_ & _ & Hcan)];
      [by rewrite lookup_empty in Hold|].
    destruct (Hcan site Hsite) as (raw & parts & Hp & ->).
    exists raw. by apply clean_domain_eq.
  - intros. by eapply iteration_website.
  - intros pre nm post location_str radius gk w api_key loc found w_pre det raw
      site address phone w1 Hkey Hne Hgeo Hpost Hpre Hdet Hsite Hraw Hclean Ha Hp.
    rewrite (find_vendor_contacts_eval lib _ _ _ _ _ _ _ Hkey Hne Hgeo).
    rewrite loop_app, Hpre, loop_cons.
    rewrite (iteration_website lib api_key loc radius found nm det raw site
               address phone w_pre w1 Hdet Hsite Hraw Hclean Ha Hp).
    match goal with
    | |- context [loop lib api_key loc radius post ?res ?w2] =>
        destruct (wp_returns _ _ _ (loop_post lib api_key loc radius post res w2))
          as (results & w' & -> & _ & Hframe & _)
    end.
    exists results, w'. split; [done|].
    by rewrite (Hframe nm Hpost), lookup_insert_eq.
Qed.

(** C10 as the claim states it fails: a URL without a scheme that starts
    with two slashes keeps its netloc. *)
Lemma scheme_less_not_always_degenerate :
  ¬ (∀ lib raw parts, Url.urlparse lib raw = Ok parts → scheme parts = "" →
       _clean_domain lib raw = Ok "://").
Proof.
  intros H.
  specialize (H strict_lib "//example.com/path" _ eq_refl eq_refl). discriminate H.
Qed.

(** Without a scheme and with two leading slashes the netloc is the text
    after them, up to the first of [/ ? #]. *)
Lemma urlsplit_scheme_less_netloc (lib : Lib) (raw : string) (parts : ParseResult) :
  Url.urlsplit lib raw = Ok parts → scheme parts = "" →
  Py.startswith "//" (sanitized raw) = true →
  netloc parts = (Url._splitnetloc (Py.drop 2 (sanitized raw))).1.
Proof.
  intros (url & [[_ ->]|(c0 & pre & _ & Hs)] & ->)%urlsplit_Ok Hscheme Hyes.
  - by rewrite Hyes.
  - rewrite Hs in Hscheme. by apply lower_nonempty in Hscheme.
Qed.

(** C10, amended. [_clean_domain] returns exactly the scheme and the netloc
    of [urlparse] joined by ["://"].  What decides for a URL in which
    [urlparse] finds no scheme is the text that [urlparse] parses, the URL
    without its leading control characters and spaces and without its tabs
    and line breaks: when that text does not start with two slashes,
    ["example.com/path"] for one, the result is ["://"]; when it does, the
    result is ["://"] and the netloc, the text after the two slashes up to
    the first of [/ ? #], so ["//example.com/path"] and
    [" //example.com/path"] both give ["://example.com"].  The string
    ["://"] is truthy, so a contact built from such a website holds ["://"]
    and the scraper has been sent to it: the page request for ["://"] is the
    call the world has recorded last. *)
Theorem clean_domain_scheme_less (lib : Lib) :
  (∀ raw parts, Url.urlparse lib raw = Ok parts →
     _clean_domain lib raw = Ok (scheme parts +:+ "://" +:+ netloc parts)) ∧
  (∀ raw parts, Url.urlparse lib raw = Ok parts → scheme parts = "" →
     Py.startswith "//" (sanitized raw) = false →
     _clean_domain lib raw = Ok "://") ∧
  (∀ raw parts, Url.urlparse lib raw = Ok parts → scheme parts = "" →
     Py.startswith "//" (sanitized raw) = true →
     _clean_domain lib raw
     = Ok ("://" +:+ (Url._splitnetloc (Py.drop 2 (sanitized raw))).1)) ∧
  _clean_domain lib "//example.com/path" = Ok "://example.com" ∧
  _clean_domain lib " //example.com/path" = Ok "://example.com" ∧
  _clean_domain lib "example.com/path" = Ok "://" ∧
  Py.truthy (Some "://") = true ∧
  (∀ nm det raw address phone w,
     Json.get det "website" JNull = Ok (JStr raw) → raw ≠ "" →
     _clean_domain lib raw = Ok "://" →
     (a ← Json.get det "formatted_address" JNull; validate_optional_str lib a)
       = Ok address →
     (p ← Json.get det "formatted_phone_number" JNull; validate_optional_str lib p)
       = Ok phone →
     ∃ c w', contact_from lib nm det w = (Ok c, w') ∧
       website c = Some "://" ∧
       history w' = history w ++ [ReqPage "://" 5] ∧
       email c = extract_result (http w (history w ++ [ReqPage "://" 5]))).
Proof.
  split_and!.
  - apply clean_domain_eq.
  - intros raw parts Hp Hs Hno. rewrite (clean_domain_eq lib _ _ Hp), Hs.
    by rewrite (urlsplit_scheme_less lib _ _ Hp Hs Hno).
  - intros raw parts Hp Hs Hyes. rewrite (clean_domain_eq lib _ _ Hp), Hs.
    by rewrite (urlsplit_scheme_less_netloc lib _ _ Hp Hs Hyes).
  - reflexivity.
  - reflexivity.
  - reflexivity.
  - reflexivity.
  - intros nm det raw address phone w Hsite Hraw Hclean Ha Hp.
    eexists _, _. split; [by eapply contact_from_eval|]. done.
Qed.

(** ** Which names are searched for *)

Lemma searches_snoc (h : list Request) (req : Request) :
  searches (h ++ [req]) =
  searches h ++ match req with
                | ReqTextSearch query _ _ _ => [query]
                | _ => []
                end.
Proof. unfold searches. rewrite omap_app. by destruct req. Qed.

Lemma wp_conj {A} (m : M A) (w : World) (Q1 Q2 : A → World → Prop)
    (E1 E2 : Exn → World → Prop) :
  wp m w Q1 E1 → wp m w Q2 E2 →
  wp m w (λ a w', Q1 a w' ∧ Q2 a w') (λ e w', E1 e w' ∧ E2 e w').
Proof. unfold wp. by destruct (m w) as [[a|e] w']. Qed.

Lemma wp_conj_returns {A} (m : M A) (w : World) (Q1 Q2 : A → World → Prop)
    (E2 : Exn → World → Prop) :
  wp m w Q1 (λ _ _, False) → wp m w Q2 E2 →
  wp m w (λ a w', Q1 a w' ∧ Q2 a w') (λ _ _, False).
Proof. unfold wp. by destruct (m w) as [[a|e] w']. Qed.

Section LogsRules.
Context {A B : Type}.

Lemma logs_ret (a : A) : logs [] (mret a).
Proof. intros w. apply wp_ret. by rewrite app_nil_r. Qed.

Lemma logs_lift (o : Outcome A) : logs [] (lift o).
Proof. intros w. apply wp_lift. destruct o; by rewrite app_nil_r. Qed.

(** A step that searches, followed by steps that do not. *)
Lemma logs_bind (xs : list string) (m : M A) (f : A → M B) :
  logs xs m → (∀ a, logs [] (f a)) → logs xs (m ≫= f).
Proof.
  intros Hm Hf w. apply wp_bind.
  eapply wp_mono; [apply Hm| |done].
  intros a w' Hw'. cbn beta.
  eapply wp_mono; [apply Hf| |]; intros ? w'' ->; by rewrite Hw', app_nil_r.
Qed.

Lemma logs_try_except (xs : list string) (m : M A) (h : Exn → M A) :
  logs xs m → (∀ e, logs [] (h e)) → logs xs (try_except m h).
Proof.
  intros Hm Hh w. apply wp_try_except.
  eapply wp_mono; [apply Hm|done|].
  intros e w' Hw'. cbn beta. destruct (is_Exception e); [|done].
  eapply wp_mono; [apply Hh| |]; intros ? w'' ->; by rewrite Hw', app_nil_r.
Qed.

End LogsRules.

Lemma logs_requests_get (req : Request) :
  logs match req with
       | ReqTextSearch query _ _ _ => [query]
       | _ => []
       end (requests_get req).
Proof.
  intros w. apply wp_requests_get; intros; cbn [history record];
    apply searches_snoc.
Qed.

Lemma logs_extract_email (url : string) : logs [] (_extract_email_from_website url).
Proof.
  intros w. apply wp_extract_email. cbn [history record].
  apply (searches_snoc _ (ReqPage url 5)).
Qed.

Lemma logs_place_details (api_key : string) (loc : Location) (radius : Z)
    (nm : string) :
  logs [nm] (place_details api_key loc radius nm).
Proof.
  unfold place_details.
  apply logs_bind; [apply (logs_requests_get (ReqTextSearch nm loc radius api_key))|].
  intros resp. apply logs_bind; [apply logs_lift|intros _].
  apply logs_bind; [apply logs_lift|intros body].
  apply logs_bind; [apply logs_lift|intros items].
  destruct (negb (Json.truthy items)); [apply logs_ret|].
  apply logs_bind; [apply logs_lift|intros first].
  apply logs_bind; [apply logs_lift|intros place_id].
  apply logs_bind;
    [apply (logs_requests_get (ReqDetails place_id details_fields api_key))|].
  intros dresp. apply logs_bind; [apply logs_lift|intros dbody].
  apply logs_bind; [apply logs_lift|intros det]. apply logs_ret.
Qed.

Lemma logs_contact_from (lib : Lib) (nm : string) (det : Json) :
  logs [] (contact_from lib nm det).
Proof.
  unfold contact_from.
  apply logs_bind; [apply logs_lift|intros raw_site].
  apply logs_bind; [apply logs_lift|intros clean_site].
  apply logs_bind; [apply logs_lift|intros raw_address].
  apply logs_bind; [apply logs_lift|intros raw_phone].
  apply logs_bind; [apply logs_lift|intros address].
  apply logs_bind; [apply logs_lift|intros phone].
  cbn [website]. destruct (Py.truthy clean_site); [|apply logs_ret].
  apply logs_bind; [apply logs_extract_email|intros email]. apply logs_ret.
Qed.

(** One iteration makes one text search, for its name, whatever happens. *)
Lemma logs_iteration (lib : Lib) (api_key : string) (loc : Location) (radius : Z)
    (results : gmap string VendorContact) (nm : string) :
  logs [nm] (iteration lib api_key loc radius results nm).
Proof.
  unfold iteration, lookup.
  apply logs_try_except; [|intros e; apply logs_ret].
  apply logs_bind; [|intros c; apply logs_ret].
  apply logs_bind; [apply logs_place_details|].
  intros [det|]; [apply logs_contact_from|apply logs_ret].
Qed.

(** The loop makes one text search per name, in the order of the list. *)
Lemma loop_searches (lib : Lib) (api_key : string) (loc : Location) (radius : Z)
    (names : list string) (results : gmap string VendorContact) (w : World) :
  wp (loop lib api_key loc radius names results) w
     (λ _ w', searches (history w') = searches (history w) ++ names)
     (λ _ _, False).
Proof.
  revert results w. induction names as [|nm rest IH]; intros results w.
  - apply wp_ret. by rewrite app_nil_r.
  - cbn [loop]. apply wp_bind.
    eapply wp_mono;
      [apply (wp_conj _ _ _ _ _ _ (iteration_post lib api_key loc radius results nm w)
                (logs_iteration lib api_key loc radius results nm w))
      | |by intros ?? [??]].
    intros res w' [_ Hw']. cbn beta.
    eapply wp_mono; [apply IH| |done].
    intros ? w'' ->. by rewrite Hw', <- app_assoc.
Qed.

(** With a key and a geocoded anchor the driver returns; the mapping has
    exactly the names as keys, and the text searches made are those for the
    names, one each. *)
Lemma find_vendor_contacts_returns (lib : Lib) (names : list string)
    (location_str : option string) (radius : Z) (google_api_key : option string)
    (w : World) (api_key : string) (loc : Location) :
  api_key_of google_api_key w = Some api_key → api_key ≠ "" →
  geocoder w (history w ++ [ReqGeocode (default default_location location_str)])
    = inr (Some loc) →
  ∃ results w',
    find_vendor_contacts lib names location_str radius google_api_key w
      = (Ok results, w') ∧
    dom results = list_to_set names ∧
    (∀ k c, results !! k = Some c → name c = k) ∧
    searches (history w') = searches (history w) ++ names.
Proof.
  intros Hkey Hne Hgeo.
  rewrite (find_vendor_contacts_eval lib _ _ _ _ _ _ _ Hkey Hne Hgeo).
  set (w1 := record (ReqGeocode (default default_location location_str)) w).
  pose proof (wp_conj_returns _ _ _ _ _
                (loop_post lib api_key loc radius names ∅ w1)
                (loop_searches lib api_key loc radius names ∅ w1)) as Hwp.
  destruct (wp_returns _ _ _ Hwp)
    as (results & w' & Hrun & (Hdom & _ & Hin) & Hs).
  exists results, w'. rewrite dom_empty_L, (left_id_L ∅ (∪)) in Hdom.
  split_and!; [done..| |].
  - intros k c Hk. destruct (Hin k c Hk) as [Hold|(_ & ? & _)]; [|done].
    by rewrite lookup_empty in Hold.
  - rewrite Hs. unfold w1. cbn [history record].
    by rewrite searches_snoc, app_nil_r.
Qed.

(** C1. For every list of vendor names (empty or not): when lines 100-109
    find a key, which every run that reaches the geocoding step has done,
    and the geocoding step returns an anchor point, [find_vendor_contacts]
    returns a mapping whose keys are exactly the names of the list, each
    mapped to a contact whose [name] is that key; a name whose lookup failed
    is among them like any other. *)
Theorem find_vendor_contacts_keys (lib : Lib) (names : list string)
    (location_str : option string) (radius : Z) (google_api_key : option string)
    (w : World) (api_key : string) (loc : Location) :
  api_key_of google_api_key w = Some api_key → api_key ≠ "" →
  geocoder w (history w ++ [ReqGeocode (default default_location location_str)])
    = inr (Some loc) →
  ∃ results w',
    find_vendor_contacts lib names location_str radius google_api_key w
      = (Ok results, w') ∧
    dom results = list_to_set names ∧
    (∀ k, k ∈ names ↔ is_Some (results !! k)) ∧
    (∀ k c, results !! k = Some c → name c = k).
Proof.
  intros Hkey Hne Hgeo.
  destruct (find_vendor_contacts_returns lib names location_str radius
              google_api_key w api_key loc Hkey Hne Hgeo)
    as (results & w' & Hrun & Hdom & Hname & _).
  exists results, w'. split_and!; [done..| |done].
  intros k. rewrite <- elem_of_dom, Hdom. set_solver.
Qed.

(** ** The row loop *)

Lemma merge_Some_inv (row row' : Row) (c : VendorContact) :
  merge row (Some c) = Ok row' →
  ∃ mid, row' = set_phone_email c mid ∧
    (Py.truthy (address c) = false ∧ mid = row ∨
     Py.truthy (address c) = true ∧
     ∃ comps, _parse_address_components (default "" (address c)) = Ok comps ∧
              mid = set_address comps row).
Proof.
  unfold merge. destruct (Py.truthy (address c)).
  - destruct (_parse_address_components _) as [comps|]; [|done].
    cbn. intros [= <-]. eauto 10.
  - cbn. intros [= <-]. eauto.
Qed.

Lemma merge_frame (row row' : Row) (contact : option VendorContact) (k : string) :
  merge row contact = Ok row' → k ∉ address_keys ++ contact_keys →
  row' !! k = row !! k.
Proof.
  intros Hm [Ha Hc]%not_elem_of_app.
  destruct contact as [c|]; [|cbn in Hm; by simplify_eq].
  apply merge_Some_inv in Hm as (mid & -> & [[_ ->]|(_ & comps & _ & ->)]).
  - by apply set_phone_email_frame.
  - rewrite set_phone_email_frame by done. by apply set_address_frame.
Qed.

Lemma merge_dom (row row' : Row) (contact : option VendorContact) :
  merge row contact = Ok row' →
  dom row ⊆ dom row' ∧
  dom row' ⊆ dom row ∪ list_to_set (address_keys ++ contact_keys).
Proof.
  intros Hm. destruct contact as [c|]; [|cbn in Hm; simplify_eq; set_solver].
  apply merge_Some_inv in Hm as (mid & -> & [[_ ->]|(_ & comps & _ & ->)]);
    unfold set_phone_email, set_address, address_keys, contact_keys;
    cbn zeta; rewrite !dom_insert_L; set_solver.
Qed.

Lemma keys_required :
  list_to_set (address_keys ++ contact_keys) ⊆@{gset string} list_to_set required_cols.
Proof. unfold address_keys, contact_keys, required_cols. set_solver. Qed.

Section RowFacts.
Context (lib : Lib).
Implicit Types (row : Row) (rows : list Row).
Implicit Types (line : CsvRow) (lines : list CsvRow).

Lemma company_names_elem rows (n : string) :
  n ∈ company_names rows ↔
  ∃ row, row ∈ rows ∧ row_get row "company" = Some n ∧ n ≠ "".
Proof.
  unfold company_names. rewrite merge_sort_Permutation, elem_of_remove_dups.
  rewrite list_elem_of_omap. split.
  - intros (row & Hin & Hf). exists row. split; [done|].
    destruct (row_get row "company") as [[|a s]|]; cbn in Hf; by simplify_eq.
  - intros (row & Hin & Hget & Hne). exists row. split; [done|].
    rewrite Hget. by destruct n.
Qed.

Lemma company_names_cells lines (n : string) :
  n ∈ company_names (cells <$> lines) ↔
  ∃ line, line ∈ lines ∧ row_get (cells line) "company" = Some n ∧ n ≠ "".
Proof.
  rewrite company_names_elem. split.
  - intros (row & (line & -> & Hin)%list_elem_of_fmap & ?). eauto.
  - intros (line & Hin & ?). exists (cells line). split; [|done].
    apply list_elem_of_fmap. eauto.
Qed.


(** The merge writes columns of the header only, so the writer takes the
    merged row exactly when it would have taken the row read. *)
Lemma fits_merge (fieldnames : list string) line (merged : Row)
    (contact : option VendorContact) :
  required_cols ⊆ fieldnames →
  merge (cells line) contact = Ok merged →
  fits fieldnames (mkCsvRow merged (surplus line)) = fits fieldnames line.
Proof.
  intros Hcols [Hsub Hsup]%merge_dom. unfold fits. cbn [cells surplus].
  f_equal. apply bool_decide_ext. split; intros H.
  - by etrans.
  - etrans; [exact Hsup|]. apply union_least; [done|].
    etrans; [apply keys_required|].
    intros k Hk%elem_of_list_to_set. apply elem_of_list_to_set. by apply Hcols.
Qed.

Section WriteRows.
Context (fieldnames : list string) (contacts : gmap string VendorContact).
Context (Hcols : required_cols ⊆ fieldnames).

(** When every row fits the header the write loop completes, and has
    written the merge of every row, in order. *)
Lemma write_rows_fit lines (file : list Row) :
  Forall (λ line, fits fieldnames line = true) lines →
  ∃ out, write_rows fieldnames contacts lines file = (Ok tt, file ++ out) ∧
    Forall2 (λ line row',
               merge (cells line) (contact_of contacts (cells line)) = Ok row')
            lines out.
Proof.
  intros Hall. revert file.
  induction Hall as [|line lines Hfit _ IH]; intros file.
  - exists []. by rewrite app_nil_r.
  - destruct (merge_total (cells line) (contact_of contacts (cells line)))
      as [merged Hm].
    destruct (IH (file ++ [merged])) as (out & Hrun & Hout).
    exists (merged :: out). cbn [write_rows].
    rewrite Hm, (fits_merge _ _ _ _ Hcols Hm), Hfit, Hrun.
    split; [by rewrite <- app_assoc|by constructor].
Qed.

(** At the first row that does not fit the header the write loop raises
    [ValueError]; it has written the merge of the rows before it. *)
Lemma write_rows_misfit (pre : list CsvRow) (bad : CsvRow) (post : list CsvRow)
    (file : list Row) :
  Forall (λ line, fits fieldnames line = true) pre →
  fits fieldnames bad = false →
  ∃ out, write_rows fieldnames contacts (pre ++ bad :: post) file
           = (Raise ValueError, file ++ out) ∧
    Forall2 (λ line row',
               merge (cells line) (contact_of contacts (cells line)) = Ok row')
            pre out.
Proof.
  intros Hall Hbad. revert file.
  induction Hall as [|line lines Hfit _ IH]; intros file.
  - exists []. rewrite app_nil_r. cbn [app write_rows].
    destruct (merge_total (cells bad) (contact_of contacts (cells bad)))
      as [merged Hm].
    by rewrite Hm, (fits_merge _ _ _ _ Hcols Hm), Hbad.
  - destruct (merge_total (cells line) (contact_of contacts (cells line)))
      as [merged Hm].
    destruct (IH (file ++ [merged])) as (out & Hrun & Hout).
    exists (merged :: out). rewrite <- app_comm_cons. cbn [write_rows].
    rewrite Hm, (fits_merge _ _ _ _ Hcols Hm), Hfit, Hrun.
    split; [by rewrite <- app_assoc|by constructor].
Qed.

End WriteRows.

(** Either every row fits the header or there is a first one that does
    not. *)
Lemma first_misfit (fieldnames : list string) lines :
  Forall (λ line, fits fieldnames line = true) lines ∨
  ∃ pre bad post, lines = pre ++ bad :: post ∧
    Forall (λ line, fits fieldnames line = true) pre ∧
    fits fieldnames bad = false.
Proof.
  induction lines as [|line lines IH]; [by left|].
  destruct (fits fieldnames line) eqn:Hfit; [|right; by exists [], line, lines].
  destruct IH as [IH|(pre & bad & post & -> & Hpre & Hbad)].
  - left. by constructor.
  - right. exists (line :: pre), bad, post. split_and!; [done| |done].
    by constructor.
Qed.

End RowFacts.



(** ** The theorems at work on the sample data *)

Example run_w0 :
  (map_to_list <$> (find_vendor_contacts strict_lib ["Acme"; "Nobody"; "Broken"]
                      None 5000 None w0).1) =
  Ok (map_to_list (list_to_map
        [("Acme", mkVendorContact "Acme" (Some "1 Main St, Town, IN 47150, USA")
                    None (Some "info@acme.com") (Some "https://acme.com"));
         ("Nobody", empty_contact "Nobody");
         ("Broken", empty_contact "Broken")] : gmap string VendorContact)).
Proof. vm_compute. reflexivity. Qed.

Example calls_w0 :
  history (find_vendor_contacts strict_lib ["Acme"; "Nobody"; "Broken"]
             None 5000 None w0).2 =
  [ReqGeocode default_location;
   ReqTextSearch "Acme" loc0 5000 "k";
   ReqDetails (JStr "P1") details_fields "k";
   ReqPage "https://acme.com" 5;
   ReqTextSearch "Nobody" loc0 5000 "k";
   ReqTextSearch "Broken" loc0 5000 "k"].
Proof. vm_compute. reflexivity. Qed.

Lemma find_vendor_contacts_keys_witness :
  ∃ results w',
    find_vendor_contacts strict_lib ["Acme"; "Nobody"; "Broken"] None 5000 None w0
      = (Ok results, w') ∧
    dom results = list_to_set ["Acme"; "Nobody"; "Broken"] ∧
    (∀ k, k ∈ ["Acme"; "Nobody"; "Broken"] ↔ is_Some (results !! k)) ∧
    (∀ k c, results !! k = Some c → name c = k).
Proof.
  apply (find_vendor_contacts_keys strict_lib ["Acme"; "Nobody"; "Broken"]
           None 5000 None w0 "k" loc0).
  - vm_compute. reflexivity.
  - discriminate.
  - vm_compute. reflexivity.
Defined.

Lemma failure_is_isolated_witness :
  iteration strict_lib "k" loc0 5000 ∅ "Broken" w0
    = (Ok (<["Broken" := empty_contact "Broken"]> ∅),
       record (ReqTextSearch "Broken" loc0 5000 "k") w0) ∧
  ∃ res w',
    loop strict_lib "k" loc0 5000 ["Broken"; "Acme"] ∅ w0 = (Ok res, w') ∧
    (∀ n, n ∈ ["Broken"; "Acme"] → is_Some (res !! n)) ∧
    ("Broken" ∉ ["Acme"] → res !! "Broken" = Some (empty_contact "Broken")).
Proof.
  destruct (failure_is_isolated strict_lib "k" loc0 5000 "Broken" ["Acme"] ∅ w0
              (record (ReqTextSearch "Broken" loc0 5000 "k") w0)
              (RequestException TimedOut)) as (Hit & _ & Hloop).
  - vm_compute. reflexivity.
  - split; [exact Hit|exact Hloop].
Defined.

Lemma no_candidates_contact_witness :
  ∃ c w',
    lookup strict_lib "k" loc0 5000 "Nobody" w0 = (Ok c, w') ∧
    iteration strict_lib "k" loc0 5000 ∅ "Nobody" w0 = (Ok (<["Nobody" := c]> ∅), w') ∧
    name c = "Nobody" ∧ address c = None ∧ phone c = None ∧ email c = None ∧
    website c = None ∧
    ∀ row : Row, ∃ row',
      merge row (Some c) = Ok row' ∧
      (∀ k v, row !! k = Some v → row' !! k = Some v) ∧
      ((∀ k, k ∈ contact_keys → is_Some (row !! k)) → row' = row).
Proof.
  apply (no_candidates_contact strict_lib "k" loc0 5000 "Nobody" ∅ w0 no_results
           (JObj [("results", JArr [])])).
  - vm_compute. reflexivity.
  - cbn. lia.
  - reflexivity.
  - reflexivity.
Defined.

Lemma extract_email_spec_witness :
  ∃ r,
    _extract_email_from_website "https://acme.com" w0
      = (Ok r, record (ReqPage "https://acme.com" 5) w0) ∧
    ∃ rest addr tail,
      attr_get "href" (attrs mail_link) = Some ("mailto:" +:+ rest) ∧
      r = Some addr ∧ addr = before "?" (before "mailto:" rest) ∧
      Py.contains "?" addr = false ∧
      rest = addr +:+ tail ∧
      (tail = "" ∨ Py.startswith "?" tail = true
       ∨ Py.startswith "mailto:" tail = true) ∧
      (Py.contains "mailto:" rest = false → addr = before "?" rest).
Proof.
  destruct (extract_email_spec "https://acme.com" w0)
    as (r & Hrun & _ & _ & _ & Hfound).
  exists r. split; [exact Hrun|].
  apply (Hfound acme_page [mkTag "p" []; mkTag "a" [("href", "/x")]] mail_link []).
  - vm_compute. reflexivity.
  - cbn. lia.
  - reflexivity.
  - repeat constructor.
  - reflexivity.
Defined.

Lemma clean_domain_canonical_witness :
  (∃ parts, Url.urlparse strict_lib "https://example.com/page?x=1" = Ok parts ∧
            "https://example.com" = scheme parts +:+ "://" +:+ netloc parts ∧
            no_delim (netloc parts)) ∧
  (∀ w w' c, contact_from strict_lib "Acme" acme_details w = (Ok c, w') →
     ∃ site, _clean_domain strict_lib "https://acme.com/contact?x=1" = Ok site ∧
             website c = Some site) ∧
  ∃ results w',
    find_vendor_contacts strict_lib (["Nobody"] ++ "Acme" :: ["Broken"])
      None 5000 None w0 = (Ok results, w') ∧
    results !! "Acme" = Some acme_found.
Proof.
  destruct (clean_domain_canonical strict_lib) as (Hform & _ & Hfrom & _ & _ & Hrun).
  split_and!.
  - apply (Hform "https://example.com/page?x=1" "https://example.com").
    reflexivity.
  - intros w w' c.
    apply (Hfrom "Acme" acme_details "https://acme.com/contact?x=1" w w' c).
    + reflexivity.
    + discriminate.
  - apply (Hrun ["Nobody"] "Acme" ["Broken"] None 5000 None w0 "k" loc0
             {[ "Nobody" := empty_contact "Nobody" ]}
             (mkWorld (environ w0) (geocoder w0) (http w0)
                [ReqGeocode default_location; ReqTextSearch "Nobody" loc0 5000 "k"])
             acme_details "https://acme.com/contact?x=1" "https://acme.com"
             (Some "1 Main St, Town, IN 47150, USA") None
             (mkWorld (environ w0) (geocoder w0) (http w0)
                [ReqGeocode default_location; ReqTextSearch "Nobody" loc0 5000 "k";
                 ReqTextSearch "Acme" loc0 5000 "k";
                 ReqDetails (JStr "P1") details_fields "k"])).
    + vm_compute. reflexivity.
    + discriminate.
    + vm_compute. reflexivity.
    + apply (bool_decide_unpack _). vm_compute. exact I.
    + vm_compute. reflexivity.
    + vm_compute. reflexivity.
    + reflexivity.
    + discriminate.
    + reflexivity.
    + reflexivity.
    + reflexivity.
Defined.


Lemma clean_domain_scheme_less_witness :
  _clean_domain strict_lib "example.com/path" = Ok "://" ∧
  _clean_domain strict_lib tabbed_url = Ok "://example.com" ∧
  ∀ w, ∃ c w', contact_from strict_lib "Bare" bare_details w = (Ok c, w') ∧
    website c = Some "://" ∧
    history w' = history w ++ [ReqPage "://" 5] ∧
    email c = extract_result (http w (history w ++ [ReqPage "://" 5])).
Proof.
  destruct (clean_domain_scheme_less strict_lib)
    as (_ & Hless & Hslashes & _ & _ & _ & _ & Hfrom).
  split_and!.
  - apply (Hless "example.com/path" (mkParseResult "" "" "example.com/path" "" "")).
    + reflexivity.
    + reflexivity.
    + reflexivity.
  - apply (Hslashes tabbed_url (mkParseResult "" "example.com" "/path" "" "")).
    + reflexivity.
    + reflexivity.
    + reflexivity.
  - intros w.
    apply (Hfrom "Bare" bare_details "example.com/path" None None w).
    + reflexivity.
    + discriminate.
    + reflexivity.
    + reflexivity.
    + reflexivity.
Defined.

(** * Further properties of the code *)

(** ** The record merger, field by field *)

(** X1. A phone (an e-mail) that the contact has, a non-empty string, is
    written to both [phone] and [shiphone] ([email] and [shipmail]); one it
    lacks, [None] or [""], leaves both columns at the value the row had, and
    a column that the row lacks is created empty. *)
Theorem merge_phone_email (row : Row) (c : VendorContact) :
  ∃ row', merge row (Some c) = Ok row' ∧
  (Py.truthy (phone c) = true →
     row' !! "phone" = Some (phone c) ∧ row' !! "shiphone" = Some (phone c)) ∧
  (Py.truthy (email c) = true →
     row' !! "email" = Some (email c) ∧ row' !! "shipmail" = Some (email c)) ∧
  (Py.truthy (phone c) = false → ∀ k, k ∈ ["phone"; "shiphone"] →
     row' !! k = Some (default (Some "") (row !! k))) ∧
  (Py.truthy (email c) = false → ∀ k, k ∈ ["email"; "shipmail"] →
     row' !! k = Some (default (Some "") (row !! k))).
Proof.
  destruct (merge_total row (Some c)) as [row' Hm]. exists row'.
  split; [done|].
  apply merge_Some_inv in Hm as (mid & -> & Hmid).
  destruct (set_phone_email_lookup c mid) as (H1 & H2 & H3 & H4).
  assert (Hsame : ∀ k, k ∈ contact_keys →
            row_get_or_empty mid k = default (Some "") (row !! k)).
  { intros k Hk. unfold row_get_or_empty.
    destruct Hmid as [[_ ->]|(_ & comps & _ & ->)]; [done|].
    rewrite set_address_frame; [done|].
    unfold contact_keys in Hk. unfold address_keys.
    repeat (apply elem_of_cons in Hk as [->|Hk]);
      [not_key..|by apply elem_of_nil in Hk]. }
  unfold Py.or_ in *. split_and!.
  - intros Ht. by rewrite H1, H2, Ht.
  - intros Ht. by rewrite H3, H4, Ht.
  - intros Hf k Hk. rewrite Hf in H1, H2.
    repeat (apply elem_of_cons in Hk as [->|Hk]);
      [rewrite H1|rewrite H2|by apply elem_of_nil in Hk];
      f_equal; apply Hsame; is_key.
  - intros Hf k Hk. rewrite Hf in H3, H4.
    repeat (apply elem_of_cons in Hk as [->|Hk]);
      [rewrite H3|rewrite H4|by apply elem_of_nil in Hk];
      f_equal; apply Hsame; is_key.
Qed.

Lemma merge_phone_email_witness :
  ∃ row', merge acme_row (Some acme) = Ok row' ∧
    row' !! "phone" = Some (Some "555-0100") ∧
    row' !! "shiphone" = Some (Some "555-0100") ∧
    row' !! "email" = Some (Some "a@b.c") ∧
    row' !! "shipmail" = Some (Some "").
Proof.
  destruct (merge_phone_email acme_row acme) as (row' & Hm & Hp & _ & _ & He).
  exists row'. destruct (Hp eq_refl) as [H1 H2].
  split_and!; [exact Hm|exact H1|exact H2| |].
  - rewrite (He eq_refl "email"); [reflexivity|]. is_key.
  - rewrite (He eq_refl "shipmail"); [reflexivity|]. is_key.
Defined.

(** X2. The merge touches no column but the seven address columns and the
    four phone and e-mail columns: every other cell, [addr3], [company] and
    the pass-through columns among them, is as it was.  It removes no
    column, adds none outside those eleven, and on a row that has the
    required columns it leaves the set of columns as it was, so the row
    still fits the header it was read under. *)
Theorem merge_columns (row : Row) (contact : option VendorContact) :
  ∃ row', merge row contact = Ok row' ∧
  (∀ k, k ∉ address_keys ++ contact_keys → row' !! k = row !! k) ∧
  dom row ⊆ dom row' ∧
  dom row' ⊆ dom row ∪ list_to_set (address_keys ++ contact_keys) ∧
  (list_to_set required_cols ⊆ dom row → dom row' = dom row).
Proof.
  destruct (merge_total row contact) as [row' Hm]. exists row'.
  split; [done|].
  assert (Hdom : dom row ⊆ dom row' ∧
            dom row' ⊆ dom row ∪ list_to_set (address_keys ++ contact_keys)).
  { destruct contact as [c|]; [|cbn in Hm; simplify_eq; set_solver].
    apply merge_Some_inv in Hm as (mid & -> & [[_ ->]|(_ & comps & _ & ->)]);
      unfold set_phone_email, set_address, address_keys, contact_keys;
      cbn zeta; rewrite !dom_insert_L; set_solver. }
  split_and!; [|apply Hdom..|].
  - intros k Hk. apply not_elem_of_app in Hk as [Ha Hc].
    destruct contact as [c|]; [|cbn in Hm; by simplify_eq].
    apply merge_Some_inv in Hm as (mid & -> & [[_ ->]|(_ & comps & _ & ->)]).
    + by apply set_phone_email_frame.
    + rewrite set_phone_email_frame by done. by apply set_address_frame.
  - intros Hreq. destruct Hdom as [H1 H2]. apply (anti_symm (⊆)); [|done].
    etrans; [exact H2|]. apply union_least; [done|].
    etrans; [|exact Hreq]. unfold address_keys, contact_keys, required_cols.
    set_solver.
Qed.

Lemma merge_columns_witness :
  ∃ row', merge acme_row (Some acme) = Ok row' ∧
    row' !! "id" = Some (Some "7") ∧ row' !! "company" = Some (Some "Acme").
Proof.
  destruct (merge_columns acme_row (Some acme)) as (row' & Hm & Hframe & _).
  exists row'. split_and!; [exact Hm| |].
  - rewrite (Hframe "id"); [reflexivity|]. not_key.
  - rewrite (Hframe "company"); [reflexivity|]. not_key.
Defined.

(** X3. After the merge of a contact that has an address the shipping
    address mirrors the primary one: [shipaddr1], [shipaddr2] and
    [shipaddr4] equal [addr1], [addr2] and [addr4], which are the street,
    middle and country of the decomposed address, and on a row that has an
    [addr3] column [shipaddr3] equals [addr3]. *)
Theorem merge_shipping_mirrors (row : Row) (c : VendorContact) (a : string) :
  address c = Some a → a ≠ "" →
  ∃ row' comps,
    merge row (Some c) = Ok row' ∧ _parse_address_components a = Ok comps ∧
    row' !! "addr1" = Some (Some (addr1 comps)) ∧
    row' !! "addr2" = Some (Some (addr2 comps)) ∧
    row' !! "addr4" = Some (Some (addr4 comps)) ∧
    row' !! "shipaddr1" = row' !! "addr1" ∧
    row' !! "shipaddr2" = row' !! "addr2" ∧
    row' !! "shipaddr4" = row' !! "addr4" ∧
    (is_Some (row !! "addr3") → row' !! "shipaddr3" = row' !! "addr3").
Proof.
  intros Ha Hne.
  destruct (parse_address_components_total a) as [comps Hc].
  assert (Ht : Py.truthy (address c) = true) by (rewrite Ha; by destruct a).
  exists (set_phone_email c (set_address comps row)), comps.
  destruct (set_address_lookup comps row) as (H1 & H2 & H3 & H4 & H5 & H6 & H7).
  split_and!; [|done|..].
  - unfold merge. rewrite Ht, Ha. change (default "" (Some a)) with a.
    by rewrite Hc.
  - by rewrite set_phone_email_frame by not_key.
  - by rewrite set_phone_email_frame by not_key.
  - by rewrite set_phone_email_frame by not_key.
  - rewrite !set_phone_email_frame by not_key. by rewrite H4, H1.
  - rewrite !set_phone_email_frame by not_key. by rewrite H5, H2.
  - rewrite !set_phone_email_frame by not_key. by rewrite H7, H3.
  - intros [v Hv]. rewrite !set_phone_email_frame by not_key.
    rewrite H6, set_address_frame by not_key.
    unfold row_get_or_empty. by rewrite Hv.
Qed.

Lemma merge_shipping_mirrors_witness :
  ∃ row' comps,
    merge acme_row (Some acme) = Ok row' ∧
    _parse_address_components "1 Main St, Town, IN 47150, USA" = Ok comps ∧
    row' !! "shipaddr1" = row' !! "addr1" ∧
    row' !! "shipaddr3" = row' !! "addr3".
Proof.
  destruct (merge_shipping_mirrors acme_row acme "1 Main St, Town, IN 47150, USA")
    as (row' & comps & Hm & Hc & _ & _ & _ & H1 & _ & _ & H3).
  - reflexivity.
  - discriminate.
  - exists row', comps. split_and!; [exact Hm|exact Hc|exact H1|].
    apply H3. vm_compute. eauto.
Defined.

(** ** The decomposer undoes the formatting *)

Lemma contains_char_cons (c x : ascii) (q : string) :
  Py.contains (String c "") (String x q) = false →
  x ≠ c ∧ Py.contains (String c "") q = false.
Proof.
  unfold Py.contains. rewrite !bool_decide_eq_false. cbn.
  destruct (decide (c = x)) as [->|Hne].
  - intros []. eauto.
  - intros Hq. split; [done|].
    destruct (Py.partition (String c "") q) as [[??]|]; [|by intros [? [=]]].
    destruct Hq. eauto.
Qed.

Lemma partition_char_app (c : ascii) (q r : string) :
  Py.contains (String c "") q = false →
  Py.partition (String c "") (q +:+ String c r) = Some (q, r).
Proof.
  induction q as [|x q IH]; intros Hq.
  - rewrite str_app_nil_l. cbn. by rewrite decide_True.
  - apply contains_char_cons in Hq as [Hne Hq].
    rewrite str_app_cons. cbn. rewrite decide_False by done.
    by rewrite (IH Hq).
Qed.

Lemma join_cons2 (sep x y : string) (l : list string) :
  Py.join sep (x :: y :: l) = x +:+ sep +:+ Py.join sep (y :: l).
Proof. reflexivity. Qed.

(** [split] undoes [join] on pieces free of the separator. *)
Lemma split_join (c : ascii) (qs : list string) :
  qs ≠ [] → Forall (λ q, Py.contains (String c "") q = false) qs →
  Py.split (String c "") (Py.join (String c "") qs) = qs.
Proof.
  induction qs as [|q qs IH]; [done|]. intros _ Hall.
  apply Forall_cons in Hall as [Hq Hall].
  destruct qs as [|q2 qs].
  - cbn. by apply split_no_sep.
  - rewrite join_cons2, split_unfold, str_app_cons, str_app_nil_l.
    rewrite partition_char_app by done. f_equal. by apply IH.
Qed.

Lemma join_comma_space (p : string) (ps : list string) :
  Py.join ", " (p :: ps) = Py.join "," (p :: (String " " <$> ps)).
Proof.
  revert p. induction ps as [|p2 ps IH]; intros p; [done|].
  rewrite fmap_cons, !join_cons2, (IH p2).
  destruct ps as [|p3 ps]; [done|].
  rewrite fmap_cons, !join_cons2.
  by rewrite !str_app_cons, !str_app_nil_l.
Qed.

Lemma strip_space (p : string) : Py.strip (String " " p) = Py.strip p.
Proof. reflexivity. Qed.

Lemma parts_of_formatted (p : string) (ps : list string) :
  Forall address_part (p :: ps) →
  Py.strip <$> Py.split "," (Py.join ", " (p :: ps)) = p :: ps.
Proof.
  intros Hall. rewrite join_comma_space, split_join; [|done|].
  - apply Forall_cons in Hall as [[Hp _] Hps]. rewrite fmap_cons, Hp. f_equal.
    rewrite <- list_fmap_compose. rewrite <- (list_fmap_id ps) at 2.
    apply Forall_fmap_ext_1. eapply Forall_impl; [exact Hps|].
    intros q [Hq _]. unfold compose. by rewrite strip_space.
  - apply Forall_cons in Hall as [[_ Hp] Hps]. constructor; [done|].
    apply Forall_fmap. eapply Forall_impl; [exact Hps|].
    intros q [_ Hq]. cbn.
    unfold Py.contains in *. rewrite bool_decide_eq_false in *. cbn.
    destruct (Py.partition "," q) as [[??]|]; [|by intros [? [=]]].
    destruct Hq. eauto.
Qed.

(** X4. The decomposer undoes the formatting: for a street, any number of
    middle parts and a country, each without a comma and without whitespace
    at its ends, decomposing their join by [", "] returns the street, the
    middle parts joined by [", "] and the country. *)
Theorem decompose_formatted (street country : string) (middle : list string) :
  Forall address_part (street :: middle ++ [country]) →
  _parse_address_components (Py.join ", " (street :: middle ++ [country]))
  = Ok (mkComponents street (Py.join ", " middle) country).
Proof.
  intros Hall.
  pose proof (parts_of_formatted _ _ Hall) as Hparts.
  destruct (parse_address_components_ge_2
              (Py.join ", " (street :: middle ++ [country])))
    as (s & c & Hs & Hc & ->).
  - rewrite <- (length_fmap Py.strip), Hparts. cbn. rewrite length_app. cbn. lia.
  - rewrite Hparts in Hs, Hc |- *. cbn in Hs. injection Hs as <-.
    rewrite last_cons, last_snoc in Hc. injection Hc as <-.
    cbn [tail]. by rewrite removelast_last.
Qed.

Lemma decompose_formatted_witness :
  _parse_address_components
    (Py.join ", " ("1 Main St" :: ["Town"; "IN 47150"] ++ ["USA"]))
  = Ok (mkComponents "1 Main St" (Py.join ", " ["Town"; "IN 47150"]) "USA").
Proof.
  apply (decompose_formatted "1 Main St" "USA" ["Town"; "IN 47150"]).
  repeat constructor.
Defined.

(** ** The canonicaliser on its own output *)








Lemma all_chars_app (p : ascii → bool) (a b : string) :
  Py.all_chars p (a +:+ b) = Py.all_chars p a && Py.all_chars p b.
Proof.
  induction a as [|x a IH]; [done|]. rewrite str_app_cons. cbn.
  by rewrite IH, andb_assoc.
Qed.

Lemma all_chars_impl (p q : ascii → bool) (s : string) :
  (∀ c, p c = true → q c = true) →
  Py.all_chars p s = true → Py.all_chars q s = true.
Proof.
  intros Hpq. induction s as [|x s IH]; [done|]. cbn.
  intros [Hx Hs]%andb_true_iff. by rewrite (Hpq x Hx), IH.
Qed.

Lemma all_chars_drop (p : ascii → bool) (n : nat) (s : string) :
  Py.all_chars p s = true → Py.all_chars p (Py.drop n s) = true.
Proof.
  revert s. induction n as [|n IH]; intros [|x s]; cbn; try done.
  intros [_ Hs]%andb_true_iff. by apply IH.
Qed.



Lemma splitnetloc_app (s n r : string) :
  Url._splitnetloc s = (n, r) → s = n +:+ r.
Proof.
  revert n r. induction s as [|c s IH]; intros n r; cbn.
  - by intros [= <- <-].
  - destruct (Url.is_delim c); [by intros [= <- <-]|].
    destruct (Url._splitnetloc s) as [n' r']. intros [= <- <-].
    by rewrite str_app_cons, <- (IH n' r').
Qed.









(** ** When the canonicaliser fails *)

Lemma contains_char_all (c : ascii) (s : string) :
  Py.contains (String c "") s = false →
  Py.all_chars (λ x, negb (Ascii.eqb x c)) s = true.
Proof.
  induction s as [|x s IH]; [done|].
  intros [Hne Hs]%contains_char_cons. cbn. rewrite (IH Hs), andb_true_r.
  apply negb_true_iff, Ascii.eqb_neq. done.
Qed.

Lemma all_contains_char (c : ascii) (s : string) :
  Py.all_chars (λ x, negb (Ascii.eqb x c)) s = true →
  Py.contains (String c "") s = false.
Proof.
  unfold Py.contains. rewrite bool_decide_eq_false.
  induction s as [|x s IH]; [by intros _ [? [=]]|]. cbn.
  intros [Hx Hs]%andb_true_iff. apply negb_true_iff, Ascii.eqb_neq in Hx.
  rewrite decide_False by done.
  destruct (Py.partition (String c "") s) as [[??]|]; [|by intros [? [=]]].
  destruct (IH Hs). eauto.
Qed.

Lemma all_chars_lstrip_c0 (p : ascii → bool) (s : string) :
  Py.all_chars p s = true → Py.all_chars p (Url.lstrip_c0 s) = true.
Proof.
  induction s as [|x s IH]; [done|]. cbn.
  destruct (Url.is_c0_or_space x); [|done].
  intros [_ Hs]%andb_true_iff. by apply IH.
Qed.

Lemma all_chars_remove_unsafe (p : ascii → bool) (s : string) :
  Py.all_chars p s = true → Py.all_chars p (Url.remove_unsafe s) = true.
Proof.
  induction s as [|x s IH]; [done|]. cbn.
  intros [Hx Hs]%andb_true_iff.
  destruct (Url.is_unsafe x); [by apply IH|]. cbn. by rewrite Hx, IH.
Qed.

Lemma checknetloc_ascii (lib : Lib) (n : string) :
  Py.all_chars Url.is_ascii n = true → Url._checknetloc lib n = Ok tt.
Proof. unfold Url._checknetloc. intros ->. by rewrite orb_true_r. Qed.

(** On an ASCII URL without square brackets [urlsplit] returns. *)
Lemma urlsplit_plain (lib : Lib) (raw : string) :
  Py.all_chars plain_char raw = true → ∃ parts, Url.urlsplit lib raw = Ok parts.
Proof.
  intros Hraw. unfold Url.urlsplit.
  assert (H0 : Py.all_chars plain_char (Url.remove_unsafe (Url.lstrip_c0 raw)) = true)
    by by apply all_chars_remove_unsafe, all_chars_lstrip_c0.
  set (url0 := Url.remove_unsafe (Url.lstrip_c0 raw)) in *.
  assert (Hnet : ∀ url, Py.all_chars plain_char url = true →
            ∀ n r, Url._splitnetloc (Py.drop 2 url) = (n, r) →
                   Py.contains "[" n = false ∧ Py.contains "]" n = false ∧
                   Py.all_chars Url.is_ascii n = true).
  { intros url Hurl n r En. apply splitnetloc_app in En.
    pose proof (all_chars_drop plain_char 2 url Hurl) as Hd.
    rewrite En, all_chars_app in Hd. apply andb_true_iff in Hd as [Hn _].
    split_and!; [apply all_contains_char..|];
      (eapply all_chars_impl; [|exact Hn]);
      by intros c [? [??]%andb_true_iff]%andb_true_iff. }
  assert (∃ sch url, Py.all_chars plain_char url = true ∧
            match Py.partition ":" url0 with
            | Some (String c0 pre as head, rest) =>
                if Url.is_ascii_alpha c0 && Py.all_chars Url.is_scheme_char head
                then (Url.lower head, rest)
                else (EmptyString, url0)
            | _ => (EmptyString, url0)
            end = (sch, url)) as (sch & url & Hurl & ->).
  { destruct (Py.partition ":" url0) as [[[|c0 pre] rest]|] eqn:Ep; [eauto| |eauto].
    destruct (Url.is_ascii_alpha c0 && _); [|eauto].
    eexists _, rest. split; [|done].
    apply partition_Some in Ep. rewrite Ep, !all_chars_app in H0.
    by apply andb_true_iff in H0 as [_ [_ ?]%andb_true_iff]. }
  unfold mbind, Outcome_bind.
  destruct (Py.startswith "//" url).
  - destruct (Url._splitnetloc (Py.drop 2 url)) as [n r] eqn:En.
    destruct (Hnet url Hurl n r En) as (-> & -> & Hascii). cbn.
    rewrite (checknetloc_ascii lib n Hascii).
    repeat case_match; eauto.
  - rewrite (checknetloc_ascii lib "" eq_refl). repeat case_match; eauto.
Qed.

Lemma all_chars_and (p q : ascii → bool) (s : string) :
  Py.all_chars p s = true → Py.all_chars q s = true →
  Py.all_chars (λ c, p c && q c) s = true.
Proof.
  induction s as [|x s IH]; [done|]. cbn.
  intros [-> Hp]%andb_true_iff [-> Hq]%andb_true_iff. by apply IH.
Qed.

(** X6. [_clean_domain] fails on no URL that is all ASCII and holds no
    square bracket, whatever the versions of the libraries; and when it
    fails it is with [ValueError]. *)
Theorem clean_domain_failure (lib : Lib) (raw : string) :
  (Py.all_chars Url.is_ascii raw = true →
   Py.contains "[" raw = false → Py.contains "]" raw = false →
   ∃ site, _clean_domain lib raw = Ok site) ∧
  (∀ e, _clean_domain lib raw = Raise e → e = ValueError).
Proof.
  split.
  - intros Ha Ho Hc. destruct (urlsplit_plain lib raw) as [parts Hp].
    + apply contains_char_all in Ho, Hc. unfold plain_char, not_bracket.
      by repeat apply all_chars_and.
    + unfold _clean_domain, Url.urlparse. rewrite Hp. cbn. eauto.
  - intros e. unfold _clean_domain, Url.urlparse.
    destruct (Url.urlsplit lib raw) as [parts|e'] eqn:E; [done|].
    cbn. intros [= <-]. by eapply urlsplit_raises.
Qed.

Lemma clean_domain_failure_witness :
  (∃ site, _clean_domain strict_lib "example.com/path" = Ok site) ∧
  (∀ e, _clean_domain strict_lib "http://[::1" = Raise e → e = ValueError).
Proof.
  destruct (clean_domain_failure strict_lib "example.com/path") as [Hok _].
  destruct (clean_domain_failure strict_lib "http://[::1") as [_ Hfail].
  split.
  - apply Hok; reflexivity.
  - exact Hfail.
Defined.

(** ** Which requests are made *)

Lemma made_nil (w : World) : made w [] w.
Proof. destruct w. unfold made. cbn. by rewrite app_nil_r. Qed.

Lemma made_trans (w w1 w2 : World) (r1 r2 : list Request) :
  made w r1 w1 → made w1 r2 w2 → made w (r1 ++ r2) w2.
Proof. unfold made. intros -> ->. cbn. by rewrite app_assoc. Qed.

Lemma made_record (w : World) (req : Request) : made w [req] (record req w).
Proof. done. Qed.

Lemma made_record2 (w : World) (r1 r2 : Request) :
  made w [r1; r2] (record r2 (record r1 w)).
Proof. unfold made, record. cbn. by rewrite <- app_assoc. Qed.

Section Requests.
Context (lib : Lib) (api_key : string) (loc : Location) (radius : Z).
Implicit Types (w : World) (results : gmap string VendorContact).

Lemma place_details_requests (nm : string) w :
  wp (place_details api_key loc radius nm) w
     (λ found w', found = None ∧ made w [ReqTextSearch nm loc radius api_key] w' ∨
        is_Some found ∧
        ∃ place_id, made w [ReqTextSearch nm loc radius api_key;
                            ReqDetails place_id details_fields api_key] w')
     (λ _ w', search_requests api_key loc radius nm w w').
Proof.
  unfold place_details, search_requests.
  apply wp_bind, wp_requests_get; [intros resp _|by left].
  apply wp_bind, wp_lift. destruct (raise_for_status resp) as [[]|]; [|by left].
  apply wp_bind, wp_lift. destruct (json resp) as [body|]; [|by left].
  apply wp_bind, wp_lift. destruct (Json.get body _ _) as [items|]; [|by left].
  destruct (Json.truthy items); cbn [negb]; [|apply wp_ret; by left].
  apply wp_bind, wp_lift. destruct (Json.item0 items) as [first|]; [|by left].
  apply wp_bind, wp_lift.
  destruct (Json.item first _) as [place_id|]; [|by left].
  assert (Hm := made_record2 w (ReqTextSearch nm loc radius api_key)
                  (ReqDetails place_id details_fields api_key)).
  apply wp_bind, wp_requests_get; [intros dresp _|right; eauto].
  apply wp_bind, wp_lift. destruct (json dresp) as [dbody|]; [|right; eauto].
  apply wp_bind, wp_lift.
  destruct (Json.get dbody _ _) as [det|]; [|right; eauto].
  apply wp_ret. right. eauto.
Qed.

(** Lines 147-159 make no request but the fetch of the canonical website,
    and none at all when they raise or find no website; an e-mail comes
    only with a website. *)
Lemma contact_from_requests (nm : string) (det : Json) w :
  wp (contact_from lib nm det) w
     (λ c w', website c = None ∧ email c = None ∧ w' = w ∨
        ∃ raw site, _clean_domain lib raw = Ok site ∧ site ≠ "" ∧
                    website c = Some site ∧ w' = record (ReqPage site 5) w)
     (λ _ w', w' = w).
Proof.
  unfold contact_from.
  apply wp_bind, wp_lift. destruct (Json.get det "website" JNull) as [raw_site|]; [|done].
  apply wp_bind, wp_lift.
  assert (Hsite : match (if Json.truthy raw_site then
                           match raw_site with
                           | JStr s => site ← _clean_domain lib s; Ok (Some site)
                           | _ => Raise AttributeError
                           end
                         else Ok None) with
                  | Ok (Some site) => ∃ raw, _clean_domain lib raw = Ok site
                  | _ => True
                  end).
  { destruct (Json.truthy raw_site); [|done].
    destruct raw_site as [| | |s| |]; try done.
    destruct (_clean_domain lib s) as [site|] eqn:Es; cbn; eauto. }
  destruct (if Json.truthy raw_site then _ else _) as [clean_site|]; [|done].
  apply wp_bind, wp_lift. destruct (Json.get det _ _) as [raw_address|]; [|done].
  apply wp_bind, wp_lift. destruct (Json.get det _ _) as [raw_phone|]; [|done].
  apply wp_bind, wp_lift.
  destruct (validate_optional_str lib raw_address) as [address|]; [|done].
  apply wp_bind, wp_lift.
  destruct (validate_optional_str lib raw_phone) as [phone|]; [|done].
  cbn [website]. destruct clean_site as [site|]; [|apply wp_ret; by left].
  destruct Hsite as [raw Hraw].
  rewrite (clean_domain_truthy lib _ _ Hraw). cbn [default].
  apply wp_bind, wp_extract_email, wp_ret. right. exists raw, site.
  split_and!; [done| |done..].
  intros ->. by pose proof (clean_domain_truthy lib _ _ Hraw).
Qed.

Lemma name_run_empty (nm : string) w w' :
  search_requests api_key loc radius nm w w' →
  name_run lib api_key loc radius nm (empty_contact nm) w w'.
Proof.
  intros [Hm|[pid Hm]]; eexists; (split_and!; [|exact Hm| |by intros [??]]).
  - by left.
  - intros site. rewrite !elem_of_cons, elem_of_nil. naive_solver.
  - right. exists pid. by left.
  - intros site. rewrite !elem_of_cons, elem_of_nil. naive_solver.
Qed.

Lemma lookup_requests (nm : string) w :
  wp (lookup lib api_key loc radius nm) w
     (λ c w', name_run lib api_key loc radius nm c w w')
     (λ _ w', search_requests api_key loc radius nm w w').
Proof.
  unfold lookup. apply wp_bind.
  eapply wp_mono; [apply place_details_requests| |done].
  intros found w1 [[-> Hm]|[[det ->] [pid Hm]]].
  - apply wp_ret, name_run_empty. by left.
  - eapply wp_mono; [apply contact_from_requests| |].
    + intros c w' [(Hw & He & ->)|(raw & site & Hc & _ & Hw & ->)].
      * eexists. split_and!; [right; exists pid; by left|exact Hm| |].
        -- intros site. rewrite Hw, !elem_of_cons, elem_of_nil. naive_solver.
        -- rewrite He. by intros [??].
      * eexists. split_and!; [right; exists pid; right; eauto| | |by rewrite Hw].
        -- apply (made_trans _ _ _ _ [ReqPage site 5] Hm), made_record.
        -- intros site'. rewrite Hw. cbn [app].
           rewrite !elem_of_cons, elem_of_nil. naive_solver.
    + intros _ w' ->. right. eauto.
Qed.

(** One iteration always returns: it files a contact under its name, and
    the requests made are those of that name. *)
Lemma iteration_requests results (nm : string) w :
  wp (iteration lib api_key loc radius results nm) w
     (λ res w', ∃ c, res = <[nm := c]> results ∧ name_run lib api_key loc radius nm c w w')
     (λ _ _, False).
Proof.
  unfold iteration. apply wp_try_except, wp_bind.
  eapply wp_mono;
    [apply (wp_conj _ _ _ _ _ _ (lookup_requests nm w)
              (lookup_post lib api_key loc radius nm w))| |].
  - intros c w' [H _]. apply wp_ret. eauto.
  - intros e w' [H ->]. apply wp_ret. eauto using name_run_empty.
Qed.

(** The loop makes the requests of its names, one block after the other,
    and every contact it files has an e-mail only with a website. *)
Lemma loop_requests (names : list string) results w :
  wp (loop lib api_key loc radius names results) w
     (λ res w',
        (∃ blocks, Forall2 (name_requests lib api_key loc radius) names blocks ∧
                   made w (concat blocks) w') ∧
        (∀ k c, res !! k = Some c →
           results !! k = Some c ∨ (is_Some (email c) → is_Some (website c))))
     (λ _ _, False).
Proof.
  revert results w. induction names as [|nm rest IH]; intros results w.
  - apply wp_ret. split; [|auto]. exists []. split; [constructor|apply made_nil].
  - cbn [loop]. apply wp_bind.
    eapply wp_mono; [apply iteration_requests| |done].
    intros res w1 (c & -> & reqs & Hreqs & Hm & _ & Hmail). cbn beta.
    eapply wp_mono; [apply IH| |done].
    intros res w2 [(blocks & Hblocks & Hm2) Hin]. split.
    + exists (reqs :: blocks). split; [by constructor|].
      cbn [concat]. by eapply made_trans.
    + intros k c' Hk. destruct (Hin k c' Hk) as [Hold|?]; [|by right].
      destruct (decide (nm = k)) as [->|Hne].
      * rewrite lookup_insert_eq in Hold. injection Hold as <-. by right.
      * rewrite lookup_insert_ne in Hold by done. by left.
Qed.

Lemma name_requests_length (nm : string) (reqs : list Request) :
  name_requests lib api_key loc radius nm reqs → (1 ≤ length reqs ≤ 3)%nat.
Proof.
  intros [->|[pid [->|(raw & site & _ & ->)]]]; cbn; lia.
Qed.

Lemma blocks_length (names : list string) (blocks : list (list Request)) :
  Forall2 (name_requests lib api_key loc radius) names blocks →
  (length names ≤ length (concat blocks) ≤ 3 * length names)%nat.
Proof.
  induction 1 as [|nm reqs names blocks Hr _ IH]; cbn; [lia|].
  apply name_requests_length in Hr. rewrite length_app. lia.
Qed.

End Requests.

(** X7. One iteration of the loop always returns, with a contact filed under
    its name.  The requests it makes are the text search for the name, then
    at most the details of one place, then at most one page, fetched with a
    time-out of five seconds; the page fetched, if any, is the website of
    the contact filed, and a contact filed with a website had it fetched. *)
Theorem one_name_requests (lib : Lib) (api_key : string) (loc : Location)
    (radius : Z) (results : gmap string VendorContact) (nm : string) (w : World) :
  ∃ c reqs w',
    iteration lib api_key loc radius results nm w
      = (Ok (<[nm := c]> results), w') ∧
    name_requests lib api_key loc radius nm reqs ∧ made w reqs w' ∧
    (∀ site, ReqPage site 5 ∈ reqs ↔ website c = Some site).
Proof.
  destruct (wp_returns _ _ _ (iteration_requests lib api_key loc radius results nm w))
    as (res & w' & Hrun & c & -> & reqs & Hreqs & Hm & Hpage & _).
  by exists c, reqs, w'.
Qed.

(** X8. With a key and a geocoded anchor, a run of [find_vendor_contacts]
    makes the geocoding request and then, name by name in the order of the
    list, the requests of each name, all with the key found; nothing else
    of the world changes.  So a run on [n] names makes between [n] and
    [3 n] requests after the geocoding. *)
Theorem find_vendor_contacts_requests (lib : Lib) (names : list string)
    (location_str : option string) (radius : Z) (google_api_key : option string)
    (w : World) (api_key : string) (loc : Location) :
  api_key_of google_api_key w = Some api_key → api_key ≠ "" →
  geocoder w (history w ++ [ReqGeocode (default default_location location_str)])
    = inr (Some loc) →
  ∃ results blocks w',
    find_vendor_contacts lib names location_str radius google_api_key w
      = (Ok results, w') ∧
    Forall2 (name_requests lib api_key loc radius) names blocks ∧
    made w (ReqGeocode (default default_location location_str) :: concat blocks) w' ∧
    (length names ≤ length (concat blocks) ≤ 3 * length names)%nat.
Proof.
  intros Hkey Hne Hgeo.
  rewrite (find_vendor_contacts_eval lib _ _ _ _ _ _ _ Hkey Hne Hgeo).
  set (l := default default_location location_str).
  destruct (wp_returns _ _ _ (loop_requests lib api_key loc radius names ∅
                                (record (ReqGeocode l) w)))
    as (results & w' & Hrun & (blocks & Hblocks & Hm) & _).
  exists results, blocks, w'.
  split; [done|split; [done|split; [|by eapply blocks_length]]].
  apply (made_trans _ _ _ [ReqGeocode l] _ (made_record w _) Hm).
Qed.

Lemma find_vendor_contacts_requests_witness :
  ∃ results blocks w',
    find_vendor_contacts strict_lib ["Acme"; "Nobody"; "Broken"] None 5000 None w0
      = (Ok results, w') ∧
    Forall2 (name_requests strict_lib "k" loc0 5000)
      ["Acme"; "Nobody"; "Broken"] blocks ∧
    made w0 (ReqGeocode default_location :: concat blocks) w' ∧
    (3 ≤ length (concat blocks) ≤ 9)%nat.
Proof.
  apply (find_vendor_contacts_requests strict_lib ["Acme"; "Nobody"; "Broken"]
           None 5000 None w0 "k" loc0).
  - vm_compute. reflexivity.
  - discriminate.
  - vm_compute. reflexivity.
Defined.

(** X9. In a mapping that [find_vendor_contacts] returns no contact has an
    e-mail without a website. *)
Theorem email_needs_website (lib : Lib) (names : list string)
    (location_str : option string) (radius : Z) (google_api_key : option string)
    (w w' : World) (results : gmap string VendorContact)
    (k : string) (c : VendorContact) :
  find_vendor_contacts lib names location_str radius google_api_key w
    = (Ok results, w') →
  results !! k = Some c → is_Some (email c) → is_Some (website c).
Proof.
  intros (api_key & loc & w1 & Hloop)%find_vendor_contacts_Ok_inv Hk.
  pose proof (wp_run _ _ _ _ _ _ (loop_requests lib api_key loc radius names ∅ w1)
                Hloop) as [_ Hin].
  destruct (Hin k c Hk) as [Hold|?]; [|done].
  by rewrite lookup_empty in Hold.
Qed.

Lemma email_needs_website_witness :
  (find_vendor_contacts strict_lib ["Acme"] None 5000 None w0).1
    = Ok {[ "Acme" := acme_found ]} ∧
  is_Some (website acme_found).
Proof.
  assert (Hrun : find_vendor_contacts strict_lib ["Acme"] None 5000 None w0
            = (Ok {[ "Acme" := acme_found ]},
               mkWorld (environ w0) (geocoder w0) (http w0)
                 [ReqGeocode default_location;
                  ReqTextSearch "Acme" loc0 5000 "k";
                  ReqDetails (JStr "P1") details_fields "k";
                  ReqPage "https://acme.com" 5]))
    by (vm_compute; reflexivity).
  split; [by rewrite Hrun|].
  apply (email_needs_website strict_lib ["Acme"] None 5000 None w0 _ _
           "Acme" acme_found Hrun).
  - reflexivity.
  - by eexists.
Defined.

(** X10. [find_vendor_contacts] fails in two ways only.  Without a key it
    raises [EnvironmentError] before any call is made.  With a key it makes
    the geocoding call and fails when that finds no match ([ValueError]) or
    fails itself (its error goes through); no request for a name has been
    made then.  No failure of a request for a name makes it fail. *)
Theorem find_vendor_contacts_failure (lib : Lib) (names : list string)
    (location_str : option string) (radius : Z) (google_api_key : option string)
    (w w' : World) (e : Exn) :
  find_vendor_contacts lib names location_str radius google_api_key w
    = (Raise e, w') ↔
  Py.truthy (api_key_of google_api_key w) = false ∧
    e = EnvironmentError ∧ w' = w ∨
  Py.truthy (api_key_of google_api_key w) = true ∧
    w' = record (ReqGeocode (default default_location location_str)) w ∧
    (geocoder w (history w ++ [ReqGeocode (default default_location location_str)])
       = inr None ∧ e = ValueError ∨
     ∃ ne, geocoder w (history w ++
                         [ReqGeocode (default default_location location_str)])
             = inl ne ∧ e = RequestException ne).
Proof.
  set (l := default default_location location_str).
  destruct (Py.truthy (api_key_of google_api_key w)) eqn:Hkey.
  - unfold api_key_of in Hkey.
    unfold find_vendor_contacts, getenv, mbind, M_bind.
    destruct (Py.or_ _ _) as [[|a key]|]; [done| |done].
    unfold _geocode_location, geocode, mbind, M_bind. cbn [history record].
    fold l. destruct (geocoder w (history w ++ [ReqGeocode l])) as [ne|[loc0|]].
    + split; [intros [= <- <-]; right; eauto 10|].
      intros [(? & _)|(_ & -> & [[? _]|(ne' & [= <-] & ->)])]; done.
    + cbn. split.
      * intros Hrun.
        by pose proof (wp_run _ _ _ _ _ _
                         (loop_post lib (String a key) loc0 radius names ∅ _) Hrun).
      * intros [(? & _)|(_ & _ & [[? _]|(? & ? & _)])]; done.
    + split; [intros [= <- <-]; right; eauto 10|].
      intros [(? & _)|(_ & -> & [[_ ->]|(? & ? & _)])]; done.
  - rewrite (find_vendor_contacts_no_key lib _ _ _ _ _ Hkey). split.
    + intros [= <- <-]. by left.
    + intros [(_ & -> & ->)|(? & _)]; done.
Qed.

Lemma find_vendor_contacts_failure_witness :
  find_vendor_contacts strict_lib ["Acme"] None 5000 (Some "")
    (mkWorld ∅ (λ _, inr None) answer0 [])
  = (Raise EnvironmentError, mkWorld ∅ (λ _, inr None) answer0 []) ∧
  find_vendor_contacts strict_lib ["Acme"] None 5000 (Some "k")
    (mkWorld ∅ (λ _, inr None) answer0 [])
  = (Raise ValueError, mkWorld ∅ (λ _, inr None) answer0 [ReqGeocode default_location]).
Proof.
  split.
  - apply (find_vendor_contacts_failure strict_lib ["Acme"] None 5000 (Some "")).
    left. split_and!; reflexivity.
  - apply (find_vendor_contacts_failure strict_lib ["Acme"] None 5000 (Some "k")).
    right. split_and!; [reflexivity..|]. left. split; reflexivity.
Defined.

(** ** A website that cannot be canonicalised *)

(** X11. When the details of a place carry a website that is truthy but on
    which [_clean_domain] raises, or that is no string, the iteration files
    the empty contact: the address and the phone number that came with the
    details are dropped, and no page is fetched. *)
Theorem bad_website_loses_details (lib : Lib) (api_key : string) (loc : Location)
    (radius : Z) (results : gmap string VendorContact) (nm : string)
    (det site : Json) (w w1 : World) :
  place_details api_key loc radius nm w = (Ok (Some det), w1) →
  Json.get det "website" JNull = Ok site → Json.truthy site = true →
  (∀ raw, site = JStr raw → ∃ e, _clean_domain lib raw = Raise e) →
  iteration lib api_key loc radius results nm w
    = (Ok (<[nm := empty_contact nm]> results), w1).
Proof.
  intros Hdet Hsite Htruthy Hbad.
  assert (∃ e, lookup lib api_key loc radius nm w = (Raise e, w1)) as [e He].
  { unfold lookup, mbind, M_bind. rewrite Hdet.
    unfold contact_from, mbind, M_bind, lift. rewrite Hsite, Htruthy.
    destruct site as [| | |raw| |]; try by eexists.
    destruct (Hbad raw eq_refl) as [e ->]. by eexists. }
  by eapply iteration_failure.
Qed.

Lemma bad_website_loses_details_witness :
  iteration strict_lib "k" loc0 5000 ∅ "Acme" w_bad
  = (Ok {[ "Acme" := empty_contact "Acme" ]},
     mkWorld (environ w_bad) (geocoder w_bad) (http w_bad)
       [ReqTextSearch "Acme" loc0 5000 "k";
        ReqDetails (JStr "P1") details_fields "k"]).
Proof.
  apply (bad_website_loses_details strict_lib "k" loc0 5000 ∅ "Acme"
           bad_site_details (JStr "http://[::1")).
  - vm_compute. reflexivity.
  - reflexivity.
  - reflexivity.
  - intros raw [= <-]. by eexists.
Defined.

(** ** The rows handed to the writer *)

Lemma find_vendor_contacts_Ok_dom (lib : Lib) (names : list string)
    (location_str : option string) (radius : Z) (google_api_key : option string)
    (w w' : World) (contacts : gmap string VendorContact) :
  find_vendor_contacts lib names location_str radius google_api_key w
    = (Ok contacts, w') →
  dom contacts = list_to_set names ∧ ∀ k c, contacts !! k = Some c → name c = k.
Proof.
  intros (api_key & loc & w1 & Hloop)%find_vendor_contacts_Ok_inv.
  pose proof (wp_run _ _ _ _ _ _ (loop_post lib api_key loc radius names ∅ w1) Hloop)
    as (Hdom & _ & Hin).
  rewrite dom_empty_L, (left_id_L ∅ (∪)) in Hdom. split; [done|].
  intros k c Hk. destruct (Hin k c Hk) as [Hold|(_ & ? & _)]; [|done].
  by rewrite lookup_empty in Hold.
Qed.

(** The two ways the write loop ends. *)
Lemma write_rows_cases (fieldnames : list string)
    (contacts : gmap string VendorContact) (rows : list CsvRow) :
  required_cols ⊆ fieldnames →
  (Forall (λ row, fits fieldnames row = true) rows ∧
   ∃ out, write_rows fieldnames contacts rows [] = (Ok tt, out) ∧
     Forall2 (λ row row',
                merge (cells row) (contact_of contacts (cells row)) = Ok row')
             rows out) ∨
  (Exists (λ row, fits fieldnames row = false) rows ∧
   ∃ out, write_rows fieldnames contacts rows [] = (Raise ValueError, out)).
Proof.
  intros Hcols.
  destruct (first_misfit fieldnames rows)
    as [Hall|(pre & bad & post & -> & Hpre & Hbad)].
  - left. split; [done|].
    destruct (write_rows_fit fieldnames contacts Hcols rows [] Hall)
      as (out & Hout & Hall2). eauto.
  - right. split.
    + apply Exists_app. right. by left.
    + destruct (write_rows_misfit fieldnames contacts Hcols pre bad post []
                  Hpre Hbad) as (out & Hout & _). eauto.
Qed.

Lemma process_vendor_csv_inv (lib : Lib) (fieldnames : list string)
    (rows : list CsvRow) (w w' : World) (out : list Row) :
  process_vendor_csv lib fieldnames rows w = (Ok out, w') →
  required_cols ⊆ fieldnames ∧
  Forall (λ row, fits fieldnames row = true) rows ∧
  ∃ contacts,
    find_vendor_contacts lib (company_names (cells <$> rows)) None 5000 None w
      = (Ok contacts, w') ∧
    Forall2 (λ row row',
               merge (cells row) (contact_of contacts (cells row)) = Ok row')
            rows out.
Proof.
  unfold process_vendor_csv. case_bool_decide as Hcols; cbn [negb]; [|done].
  unfold mbind at 1. unfold M_bind, lift.
  destruct (find_vendor_contacts _ _ _ _ _ w) as [[contacts|e] w1]; [|done].
  destruct (write_rows_cases fieldnames contacts rows Hcols)
    as [(Hall & out' & -> & Hall2)|(_ & out' & ->)]; [|done].
  cbn. intros [= <- <-]. eauto 10.
Qed.

(** X12. Of a run of [process_vendor_csv] that returns, the rows written
    are the rows read, one for one and in their order, and every row read
    fitted the header.  Each row written differs from the row read in no
    column but the seven address and four contact columns; it has no column
    outside the header; and a row with a company name has been merged with
    a contact of that very name. *)
Theorem process_vendor_csv_rows (lib : Lib) (fieldnames : list string)
    (rows : list CsvRow) (w w' : World) (out : list Row) :
  process_vendor_csv lib fieldnames rows w = (Ok out, w') →
  Forall2 (λ row row',
     fits fieldnames row = true ∧
     (∀ k, k ∉ address_keys ++ contact_keys → row' !! k = cells row !! k) ∧
     dom row' ⊆@{gset string} list_to_set fieldnames ∧
     (∀ n, row_get (cells row) "company" = Some n → n ≠ "" →
        ∃ c, name c = n ∧ merge (cells row) (Some c) = Ok row')) rows out.
Proof.
  intros (Hcols & Hfit & contacts & Hrun & Hall)%process_vendor_csv_inv.
  apply find_vendor_contacts_Ok_dom in Hrun as [Hdom Hname].
  apply Forall2_same_length_lookup_2; [by eapply Forall2_length|].
  intros i row row' Hi Hi'.
  pose proof (Forall2_lookup_lr _ _ _ _ _ _ Hall Hi Hi') as Hm. cbn beta in Hm.
  pose proof (Forall_lookup_1 _ _ _ _ Hfit Hi) as Hrow. cbn beta in Hrow.
  assert (Hsub : dom row' ⊆@{gset string} list_to_set fieldnames).
  { rewrite <- (fits_merge _ _ _ _ Hcols Hm) in Hrow.
    apply andb_true_iff in Hrow as [_ Hrow]. by apply bool_decide_eq_true in Hrow. }
  split_and!; [done| |done|].
  - intros k Hk. by eapply merge_frame.
  - intros n Hn Hne. unfold contact_of in Hm. rewrite Hn in Hm.
    assert (is_Some (contacts !! n)) as [c Hc].
    { apply elem_of_dom. rewrite Hdom, elem_of_list_to_set.
      apply company_names_cells. exists row.
      split; [by eapply list_elem_of_lookup_2|done]. }
    exists c. rewrite Hc in Hm. split; [by apply Hname|done].
Qed.

Lemma process_vendor_csv_returns (lib : Lib) (fieldnames : list string)
    (rows : list CsvRow) (w : World) (api_key : string) (loc : Location) :
  required_cols ⊆ fieldnames →
  Forall (λ row, fits fieldnames row = true) rows →
  api_key_of None w = Some api_key → api_key ≠ "" →
  geocoder w (history w ++ [ReqGeocode default_location]) = inr (Some loc) →
  ∃ out w', process_vendor_csv lib fieldnames rows w = (Ok out, w').
Proof.
  intros Hcols Hfit Hkey Hne Hgeo.
  destruct (find_vendor_contacts_returns lib (company_names (cells <$> rows))
              None 5000 None w api_key loc Hkey Hne Hgeo)
    as (contacts & w' & Hrun & _).
  destruct (write_rows_fit fieldnames contacts Hcols rows [] Hfit)
    as (out & Hout & _).
  exists out, w'. unfold process_vendor_csv.
  rewrite bool_decide_eq_true_2 by done. cbn [negb].
  unfold mbind at 1. unfold M_bind. by rewrite Hrun, Hout.
Qed.

Lemma process_vendor_csv_rows_witness :
  ∃ out w',
    process_vendor_csv strict_lib ("id" :: required_cols) [acme_line; blank_line] w0
      = (Ok out, w') ∧
    Forall2 (λ row row',
       fits ("id" :: required_cols) row = true ∧
       (∀ k, k ∉ address_keys ++ contact_keys → row' !! k = cells row !! k) ∧
       dom row' ⊆@{gset string} list_to_set ("id" :: required_cols) ∧
       (∀ n, row_get (cells row) "company" = Some n → n ≠ "" →
          ∃ c, name c = n ∧ merge (cells row) (Some c) = Ok row'))
      [acme_line; blank_line] out.
Proof.
  destruct (process_vendor_csv_returns strict_lib ("id" :: required_cols)
              [acme_line; blank_line] w0 "k" loc0) as (out & w' & Hrun).
  - apply (bool_decide_unpack _). vm_compute. exact I.
  - repeat constructor.
  - vm_compute. reflexivity.
  - discriminate.
  - vm_compute. reflexivity.
  - exists out, w'. split; [exact Hrun|].
    exact (process_vendor_csv_rows strict_lib _ _ _ _ _ Hrun).
Defined.



(** ** The names looked up *)

(** X14. The names that [process_vendor_csv] sends to the lookup are in
    ascending order and without repetition, and they depend on the rows
    only up to their order: reading the same rows in another order sends
    the same list, so makes the same searches. *)
Theorem company_names_order (rows : list Row) :
  StronglySorted String.le (company_names rows) ∧
  NoDup (company_names rows) ∧
  ∀ rows', rows' ≡ₚ rows → company_names rows' = company_names rows.
Proof.
  split_and!.
  - apply (StronglySorted_merge_sort _).
  - unfold company_names. rewrite merge_sort_Permutation. apply NoDup_remove_dups.
  - intros rows' Hperm. unfold company_names.
    apply (StronglySorted_unique String.le);
      [apply (StronglySorted_merge_sort _)..|].
    rewrite !merge_sort_Permutation.
    apply NoDup_Permutation; [apply NoDup_remove_dups..|].
    intros n. rewrite !elem_of_remove_dups. by rewrite Hperm.
Qed.

Lemma company_names_order_witness :
  company_names [blank_row; acme_row; acme_row] = ["Acme"] ∧
  company_names [acme_row; blank_row; acme_row] = ["Acme"].
Proof.
  destruct (company_names_order [blank_row; acme_row; acme_row]) as (_ & _ & Hperm).
  split; [reflexivity|].
  rewrite (Hperm [acme_row; blank_row; acme_row]); [reflexivity|].
  apply perm_swap.
Defined.
